(** * SenseSafe admin dashboard: the unified alert feed

    A shallow embedding of the alert aggregation of [services/api.js]
    ([getAllAlertsForAdmin]), of the polling of [App.jsx] ([fetchData] and its
    interval) and of the local state handling of [pages/AdminActions.jsx]
    ([fetchAlerts], [handleResolve], [handleMarkRead]), with the properties of
    the feed stated and proved over it.

    JavaScript objects are finite maps from property names to values; reading
    a property that is absent gives [JUndefined], as in the language.  *)

From Stdlib Require Import ZArith Lia Ascii String.
From stdpp Require Import base option list gmap strings pretty sorting.

Open Scope string_scope.
Open Scope Z_scope.

(** ** JavaScript values *)

Module JS.

(** The primitive values a JSON response carries.  Numbers are the integers
    (every number the modelled code computes with is a length, a counter or
    a time value in milliseconds); other numeric payload is only copied. *)
Inductive jsval : Type :=
  | JUndefined
  | JNull
  | JBool (b : bool)
  | JNum (n : Z)
  | JStr (s : string).

#[global] Instance jsval_eq_dec : EqDecision jsval.
Proof. solve_decision. Defined.

(** [ToBoolean]: what [Boolean(v)], [!v], [v || w] and [v && w] test. *)
Definition truthy (v : jsval) : bool :=
  match v with
  | JUndefined | JNull => false
  | JBool b => b
  | JNum n => negb (Z.eqb n 0)
  | JStr s => negb (String.eqb s "")
  end.

(** [Boolean(v)] *)
Definition Boolean (v : jsval) : jsval := JBool (truthy v).

(** [v || w] and [v && w] *)
Definition or_else (v w : jsval) : jsval := if truthy v then v else w.
Definition and_then (v w : jsval) : jsval := if truthy v then w else v.

(** [v === w] on primitives: same type and same value. *)
Definition strict_eq (v w : jsval) : bool := bool_decide (v = w).

(** [ToString], as a template literal applies it to a substitution. *)
Definition ToString (v : jsval) : string :=
  match v with
  | JUndefined => "undefined"
  | JNull => "null"
  | JBool true => "true"
  | JBool false => "false"
  | JNum n => pretty n
  | JStr s => s
  end.

(** [String.prototype.toLowerCase] on the ASCII letters. *)
Definition lower_ascii (c : ascii) : ascii :=
  let n := nat_of_ascii c in
  if (Nat.leb 65 n && Nat.leb n 90)%bool then ascii_of_nat (n + 32) else c.

Fixpoint toLowerCase (s : string) : string :=
  match s with
  | EmptyString => EmptyString
  | String c s' => String (lower_ascii c) (toLowerCase s')
  end.

(** Objects: property name to value. *)
Abbreviation obj := (gmap string jsval).

(** [o.k] *)
Definition get (o : obj) (k : string) : jsval := default JUndefined (o !! k).

(** An object literal [{k1: v1, ..., kn: vn}]: later properties win. *)
Definition literal (props : list (string * jsval)) : obj :=
  foldl (λ o kv, <[kv.1 := kv.2]> o) ∅ props.

(** An object literal that starts with a spread, [{...o, k1: v1, ...}]. *)
Definition spread (o : obj) (props : list (string * jsval)) : obj :=
  foldl (λ o kv, <[kv.1 := kv.2]> o) o props.

#[global] Arguments literal : simpl never.
#[global] Arguments spread : simpl never.

(** A completion: a value, or a thrown exception. *)
Inductive completion (A : Type) : Type :=
  | Normal (a : A)
  | Throw (e : string).
Arguments Normal {A} a.
Arguments Throw {A} e.

#[global] Instance completion_ret : MRet completion := λ A a, Normal a.
#[global] Instance completion_bind : MBind completion := λ A B k c,
  match c with
  | Normal a => k a
  | Throw e => Throw e
  end.

(** [try { c } catch (error) { return h }] *)
Definition try_catch {A} (c : completion A) (h : completion A) : completion A :=
  match c with
  | Normal a => Normal a
  | Throw _ => h
  end.

(** The time value of [new Date(v)], [None] for an invalid date (NaN).
    Parsing a string is left to the engine's [Date.parse]. *)
Class DateParse := Date_parse : string → option Z.

Definition TimeClip (t : Z) : option Z :=
  if Z.leb (Z.abs t) 8640000000000000 then Some t else None.

Definition Date_new `{DateParse} (v : jsval) : option Z :=
  match v with
  | JUndefined => None
  | JNull => Some 0
  | JBool b => Some (if b then 1 else 0)
  | JNum n => TimeClip n
  | JStr s => Date_parse s
  end.

(** [d1 - d2] on two dates: NaN as soon as one of them is invalid. *)
Definition Date_minus (d1 d2 : option Z) : option Z :=
  match d1, d2 with
  | Some t1, Some t2 => Some (t1 - t2)
  | _, _ => None
  end.

(** [Array.prototype.sort(comparefn)].  The sort is stable; a comparator
    result that is NaN counts as [+0].  An element moves behind another only
    when the comparator says it is greater. *)
Definition SortCompare {A} (comparefn : A → A → option Z) (x y : A) : Z :=
  default 0 (comparefn x y).

Fixpoint sort_insert {A} (comparefn : A → A → option Z) (x : A) (l : list A) : list A :=
  match l with
  | [] => [x]
  | y :: l' =>
      if Z.ltb 0 (SortCompare comparefn x y)
      then y :: sort_insert comparefn x l'
      else x :: y :: l'
  end.

Definition Array_sort {A} (comparefn : A → A → option Z) (l : list A) : list A :=
  foldr (sort_insert comparefn) [] l.

(** [xs.filter(p).length] *)
Definition count {A} (p : A → bool) (xs : list A) : Z :=
  Z.of_nat (length (List.filter p xs)).

(** [a || b] on two numbers *)
Definition num_or (a b : Z) : Z := if Z.eqb a 0 then b else a.

End JS.

Import JS.

Notation "o .[ k ]" := (JS.get o k) (at level 1, format "o .[ k ]").

(** ** services/api.js: the aggregator *)

Module Api.

(** One entry of the [Promise.allSettled] result, reduced to what the code
    reads of it: whether the request was fulfilled and, if so, the array under
    the response's collection key ([None] when [data] or the key is missing). *)
Inductive settled : Type :=
  | Rejected
  | Fulfilled (collection : option (list obj)).

(** [res.status === 'fulfilled' && res.value.data?.key ? res.value.data.key : []] *)
Definition extract (res : settled) : list obj :=
  match res with
  | Fulfilled (Some records) => records
  | Fulfilled None => []
  | Rejected => []
  end.

(** Format Messages *)
Definition formatMessage (msg : obj) : obj :=
  JS.spread msg
    [ ("id", msg.["id"]);
      ("sourceType", JStr "MESSAGE");
      ("is_read", JS.Boolean msg.["is_read"]) ].

(** Format SOS *)
Definition formatSOS (sos : obj) : obj :=
  JS.literal
    [ ("id", sos.["id"]);
      ("message_type", JStr "SOS");
      ("sourceType", JStr "SOS");
      ("user_name", JStr "Unknown User");
      ("user_id", sos.["user_id"]);
      ("title", JStr ("SOS Alert (" +:+
                        JS.ToString (JS.or_else sos.["ability"] (JStr "Unknown")) +:+ ")"));
      ("content", JStr ("Emergency SOS - Status: " +:+ JS.ToString sos.["status"]));
      ("ability", JS.or_else sos.["ability"] (JStr "NONE"));
      ("battery", sos.["battery"]);
      ("lat", sos.["lat"]);
      ("lng", sos.["lng"]);
      ("severity", JStr "critical");
      ("is_read", JBool (JS.strict_eq sos.["status"] (JStr "SAFE")));
      ("created_at", sos.["created_at"]);
      ("status", sos.["status"]);
      ("_backendId", sos.["id"]) ].

(** [v?.toLowerCase()]: [undefined] on a nullish receiver, the lower-cased
    string on a string, and a [TypeError] on a boolean or a number, which
    have no such method. *)
Definition optional_toLowerCase (v : jsval) : completion jsval :=
  match v with
  | JUndefined | JNull => Normal JUndefined
  | JStr s => Normal (JStr (JS.toLowerCase s))
  | JBool _ | JNum _ => Throw "TypeError: inc.risk_level?.toLowerCase is not a function"
  end.

(** Format Incidents *)
Definition formatIncident (inc : obj) : completion obj :=
  lowered ← optional_toLowerCase inc.["risk_level"];
  mret (JS.literal
    [ ("id", inc.["id"]);
      ("message_type", JStr "INCIDENT");
      ("sourceType", JStr "INCIDENT");
      ("user_name", JStr "Unknown User");
      ("user_id", inc.["user_id"]);
      ("title", JStr ("Incident: " +:+ JS.ToString inc.["type"]));
      ("content", inc.["description"]);
      ("category", inc.["type"]);
      ("description", inc.["description"]);
      ("severity", JS.or_else lowered (JStr "medium"));
      ("risk_score", inc.["risk_score"]);
      ("risk_level", inc.["risk_level"]);
      ("lat", inc.["lat"]);
      ("lng", inc.["lng"]);
      ("is_read", JBool (JS.strict_eq inc.["status"] (JStr "RESOLVED")
                         || JS.strict_eq inc.["status"] (JStr "VERIFIED")));
      ("created_at", inc.["created_at"]);
      ("status", inc.["status"]);
      ("image_url", inc.["image_url"]);
      ("_backendId", inc.["id"]) ]).

Record by_type_t : Type := ByType { SOS : Z; INCIDENT : Z; GENERAL : Z }.

Record stats_t : Type := Stats {
  total : Z;
  unread : Z;
  sos_count : Z;
  incident_count : Z;
  by_type : by_type_t
}.

(** What [getAllAlertsForAdmin] resolves to. *)
Record snapshot : Type := Snapshot { messages : list obj; stats : stats_t }.

(** [m => !m.is_read] and [m => m.message_type === t] *)
Definition is_unread (m : obj) : bool := negb (JS.truthy m.["is_read"]).
Definition has_type (t : string) (m : obj) : bool :=
  JS.strict_eq m.["message_type"] (JStr t).

Definition compute_stats (allItems : list obj) : stats_t :=
  {| total := Z.of_nat (length allItems);
     unread := JS.count is_unread allItems;
     sos_count := JS.count (has_type "SOS") allItems;
     incident_count := JS.count (has_type "INCIDENT") allItems;
     by_type :=
       {| SOS := JS.count (has_type "SOS") allItems;
          INCIDENT := JS.count (has_type "INCIDENT") allItems;
          GENERAL := JS.count (has_type "GENERAL") allItems |} |}.

(** The value returned from the [catch] block. *)
Definition empty_snapshot : snapshot :=
  {| messages := [];
     stats := {| total := 0; unread := 0; sos_count := 0; incident_count := 0;
                 by_type := {| SOS := 0; INCIDENT := 0; GENERAL := 0 |} |} |}.

Section Aggregate.
Context `{DateParse}.

(** [(a, b) => new Date(b.created_at) - new Date(a.created_at)] *)
Definition by_date_desc (a b : obj) : option Z :=
  JS.Date_minus (JS.Date_new b.["created_at"]) (JS.Date_new a.["created_at"]).

(** The [try] block, given the three settled requests. *)
Definition getAllAlertsForAdmin_try (messagesRes sosRes incidentsRes : settled)
  : completion snapshot :=
  let messages := extract messagesRes in
  let sosAlerts := extract sosRes in
  let incidents := extract incidentsRes in
  let formattedMessages := formatMessage <$> messages in
  let formattedSOS := formatSOS <$> sosAlerts in
  formattedIncidents ← mapM formatIncident incidents;
  let allItems :=
    JS.Array_sort by_date_desc (formattedMessages ++ formattedSOS ++ formattedIncidents) in
  mret {| messages := allItems; stats := compute_stats allItems |}.

Definition getAllAlertsForAdmin (messagesRes sosRes incidentsRes : settled)
  : completion snapshot :=
  JS.try_catch (getAllAlertsForAdmin_try messagesRes sosRes incidentsRes)
               (Normal empty_snapshot).

End Aggregate.

End Api.

(** ** pages/AdminActions.jsx: the component state and its handlers *)

Module AdminActions.

Record stats_t : Type := Stats {
  total : Z;
  unread : Z;
  sos_count : Z;
  incident_count : Z
}.

(** The three [useState] cells. *)
Record state : Type := State {
  alerts : list obj;
  isLoading : bool;
  stats : stats_t
}.

Definition initial : state :=
  {| alerts := [];
     isLoading := true;
     stats := {| total := 0; unread := 0; sos_count := 0; incident_count := 0 |} |}.

(** The calls the handlers make on the backend. *)
Inductive request : Type :=
  | resolveSOS (id : jsval)
  | resolveIncident (id : jsval)
  | markMessageAsRead (id : jsval).

(** [fetchAlerts] up to its [await]. *)
Definition fetchAlerts_begin (st : state) : state :=
  {| alerts := alerts st; isLoading := true; stats := stats st |}.

(** [fetchAlerts] from its [await] on, given what [getAllAlertsForAdmin]
    completed with.  [data.messages] is an array and [data.stats] an object
    whenever the call returns. *)
Definition fetchAlerts_end (data : completion Api.snapshot) (st : state) : state :=
  match data with
  | Normal data =>
      let alertsList := Api.messages data in
      let statsData := Api.stats data in
      {| alerts := alertsList;
         stats :=
           {| total := JS.num_or (Api.total statsData) (Z.of_nat (length alertsList));
              unread := JS.num_or (Api.unread statsData) (JS.count Api.is_unread alertsList);
              sos_count := JS.num_or (Api.SOS (Api.by_type statsData))
                                     (JS.count (Api.has_type "SOS") alertsList);
              incident_count := JS.num_or (Api.INCIDENT (Api.by_type statsData))
                                          (JS.count (Api.has_type "INCIDENT") alertsList) |};
         isLoading := false |}
  | Throw _ =>
      {| alerts := []; stats := stats st; isLoading := false |}
  end.

(** [prev => ({ ...prev, unread: Math.max(prev.unread - 1, 0) })] *)
Definition decrement_unread (prev : stats_t) : stats_t :=
  {| total := total prev;
     unread := Z.max (unread prev - 1) 0;
     sos_count := sos_count prev;
     incident_count := incident_count prev |}.

(** [alert.message_type === 'SOS' ? 'SAFE' : 'RESOLVED'] *)
Definition resolved_status (alert : obj) : jsval :=
  if JS.strict_eq alert.["message_type"] (JStr "SOS") then JStr "SAFE" else JStr "RESOLVED".

(** The two state updates of [handleResolve] ("Update local state"). *)
Definition resolve_locally (alert : obj) (st : state) : state :=
  {| alerts :=
       (λ a, if JS.strict_eq a.["id"] alert.["id"]
             then JS.spread a [("is_read", JBool true); ("status", resolved_status alert)]
             else a) <$> alerts st;
     isLoading := isLoading st;
     stats := decrement_unread (stats st) |}.

(** The backend call [handleResolve] awaits first, if any. *)
Definition resolve_request (alert : obj) : option request :=
  if JS.strict_eq alert.["message_type"] (JStr "SOS") then Some (resolveSOS alert.["id"])
  else if JS.strict_eq alert.["message_type"] (JStr "INCIDENT")
       then Some (resolveIncident alert.["id"])
       else None.

(** [handleResolve(alert)]: the requests issued and the state afterwards.
    [backend r] tells whether request [r] is fulfilled; a rejected request
    lands in the [catch], which only logs. *)
Definition handleResolve (backend : request → bool) (alert : obj) (st : state)
  : list request * state :=
  match resolve_request alert with
  | Some r => ([r], if backend r then resolve_locally alert st else st)
  | None => ([], resolve_locally alert st)
  end.

Definition mark_read_locally (alertId : jsval) (st : state) : state :=
  {| alerts :=
       (λ a, if JS.strict_eq a.["id"] alertId
             then JS.spread a [("is_read", JBool true)]
             else a) <$> alerts st;
     isLoading := isLoading st;
     stats := decrement_unread (stats st) |}.

(** [handleMarkRead(alertId)] *)
Definition handleMarkRead (backend : request → bool) (alertId : jsval) (st : state)
  : list request * state :=
  let r := markMessageAsRead alertId in
  ([r], if backend r then mark_read_locally alertId st else st).

(** What the list renders: the first ten alerts, a "Mark Read" button under
    [!alert.is_read] and a "Resolve" button under
    [alert.status !== 'SAFE' && alert.status !== 'RESOLVED']; the "Refresh"
    button is disabled while [isLoading]. *)
Definition rendered (st : state) : list obj :=
  if isLoading st then [] else take 10 (alerts st).
Definition offers_mark_read (alert : obj) : bool := negb (JS.truthy alert.["is_read"]).
Definition offers_resolve (alert : obj) : bool :=
  negb (JS.strict_eq alert.["status"] (JStr "SAFE"))
  && negb (JS.strict_eq alert.["status"] (JStr "RESOLVED")).
Definition refresh_disabled (st : state) : bool := isLoading st.

(** The snapshot the component shows is consistent when its counters are the
    counts of its own alert list. *)
Definition unread_consistent (st : state) : Prop :=
  unread (stats st) = JS.count Api.is_unread (alerts st).

Section Run.
Context `{DateParse}.

(** What can happen to the component: a fetch starts, a fetch ends with the
    three requests settled some way, the operator resolves an alert or marks
    one read and the backend answers. *)
Inductive event : Type :=
  | FetchBegin
  | FetchEnd (messagesRes sosRes incidentsRes : Api.settled)
  | Resolve (backend : request → bool) (alert : obj)
  | MarkRead (backend : request → bool) (alertId : jsval).

Definition step (st : state) (e : event) : state :=
  match e with
  | FetchBegin => fetchAlerts_begin st
  | FetchEnd m s i => fetchAlerts_end (Api.getAllAlertsForAdmin m s i) st
  | Resolve backend alert => (handleResolve backend alert st).2
  | MarkRead backend alertId => (handleMarkRead backend alertId st).2
  end.

Definition run (events : list event) : state := foldl step initial events.

End Run.

End AdminActions.

(** ** App.jsx: the polled state *)

Module App.

Record stats_t : Type := Stats {
  total : Z;
  unread : Z;
  by_type : Api.by_type_t
}.

Record state : Type := State {
  alerts : list obj;
  messages : list obj;
  stats : stats_t;
  isLoading : bool
}.

Definition initial : state :=
  {| alerts := [];
     messages := [];
     stats := {| total := 0; unread := 0;
                 by_type := {| Api.SOS := 0; Api.INCIDENT := 0; Api.GENERAL := 0 |} |};
     isLoading := true |}.

(** "Convert messages to alerts format".  The properties [id], [timestamp]
    and [location] are left out: their fallbacks read the clock and the random
    generator and format numbers, and nothing below reads them. *)
Definition toAlert (msg : obj) : obj :=
  JS.literal
    [ ("userName", JS.or_else msg.["user_name"] (JStr "Unknown User"));
      ("alertType",
         if JS.strict_eq msg.["message_type"] (JStr "SOS") then JStr "SOS Alert"
         else if JS.strict_eq msg.["message_type"] (JStr "INCIDENT") then JStr "Incident"
         else JStr "Message");
      ("userCategory", JS.or_else (JS.or_else msg.["ability"] msg.["category"]) (JStr "Normal"));
      ("isVulnerable",
         JS.and_then msg.["ability"] (JBool (negb (JS.strict_eq msg.["ability"] (JStr "NONE")))));
      ("status", if JS.truthy msg.["is_read"] then JStr "Resolved" else JStr "Active");
      ("description",
         JS.or_else (JS.or_else msg.["content"] msg.["title"]) (JStr "No description"));
      ("riskScore",
         if JS.strict_eq msg.["severity"] (JStr "critical") then JNum 95
         else if JS.strict_eq msg.["severity"] (JStr "high") then JNum 75
         else if JS.strict_eq msg.["severity"] (JStr "medium") then JNum 50
         else JNum 25);
      ("category", msg.["category"]);
      ("severity", msg.["severity"]);
      ("ability", msg.["ability"]);
      ("battery", msg.["battery"]) ].

(** [fetchData] from its [await] on.  [statsData.by_type] is an object, hence
    truthy, whenever the call returns, so its [||] keeps it. *)
Definition fetchData_end (data : completion Api.snapshot) (st : state) : state :=
  match data with
  | Normal data =>
      let messagesList := Api.messages data in
      let statsData := Api.stats data in
      let alertsList := toAlert <$> messagesList in
      {| messages := messagesList;
         alerts := alertsList;
         stats :=
           {| total := JS.num_or (Api.total statsData) (Z.of_nat (length alertsList));
              unread := JS.num_or (Api.unread statsData) (JS.count Api.is_unread alertsList);
              by_type := Api.by_type statsData |};
         isLoading := false |}
  | Throw _ =>
      {| messages := [];
         alerts := [];
         stats := {| total := 0; unread := 0;
                     by_type := {| Api.SOS := 0; Api.INCIDENT := 0; Api.GENERAL := 0 |} |};
         isLoading := false |}
  end.

(** The component together with the aggregation cycles it has started and
    that have not settled yet.  Cycles are numbered in the order they start;
    the numbers are bookkeeping of the model, the code keeps none. *)
Record world : Type := World {
  app : state;
  in_flight : list nat;
  started : nat
}.

Definition boot : world := {| app := initial; in_flight := []; started := 0 |}.

Section Schedule.
Context `{DateParse}.

(** [Invoke]: [fetchData()] is called, by the initial effect, by the
    [setInterval] callback every 10 seconds or by [handleLogin].
    [Settle k ...]: the cycle numbered [k] gets its three responses. *)
Inductive event : Type :=
  | Invoke
  | Settle (cycle : nat) (messagesRes sosRes incidentsRes : Api.settled).

Definition step (w : world) (e : event) : world :=
  match e with
  | Invoke =>
      {| app := app w; in_flight := started w :: in_flight w; started := S (started w) |}
  | Settle k m s i =>
      if bool_decide (k ∈ in_flight w)
      then {| app := fetchData_end (Api.getAllAlertsForAdmin m s i) (app w);
              in_flight := List.filter (λ j, negb (Nat.eqb j k)) (in_flight w);
              started := started w |}
      else w
  end.

Definition run (events : list event) : world := foldl step boot events.

End Schedule.

End App.

(** ** Vocabulary of the statements *)

Section Ordering.
Context {A : Type} (time : A → option Z).

(** The comparator [(a, b) => time(b) - time(a)], the time value it orders
    by, and the elements that have one. *)
Definition newest_first (a b : A) : option Z := JS.Date_minus (time b) (time a).
Definition time_value (a : A) : Z := default 0 (time a).
Definition dated (a : A) : Prop := is_Some (time a).

End Ordering.

(** The time value the aggregator sorts an alert by. *)
Definition created `{DateParse} (a : obj) : option Z := JS.Date_new a.["created_at"].

(** The three message types the statistics count. *)
Definition known_type (m : obj) : bool :=
  Api.has_type "SOS" m || Api.has_type "INCIDENT" m || Api.has_type "GENERAL" m.

(** An incident whose risk level, when it has one, is text. *)
Definition risk_level_text (inc : obj) : Prop :=
  match inc.["risk_level"] with
  | JBool _ | JNum _ => False
  | JUndefined | JNull | JStr _ => True
  end.

(** How one of the three requests ended: it failed ([None]), or it was
    answered with a collection of records; and the entry of the
    [Promise.allSettled] result that stands for it. *)
Definition response (outcome : option (list obj)) : Api.settled :=
  match outcome with
  | Some records => Api.Fulfilled (Some records)
  | None => Api.Rejected
  end.

(** The properties of the unified alert, under the names the code gives
    them, and what it is for one to be there. *)
Definition canonical_fields : list string :=
  [ "id"; "sourceType"; "message_type"; "title"; "content"; "severity";
    "is_read"; "status"; "created_at"; "_backendId" ].
Definition present (a : obj) (k : string) : Prop := a.[k] ≠ JUndefined.

(** What reading property [k] gives after the properties [props] have been
    written, in order, over an object where it read as [base]. *)
Fixpoint read_props (props : list (string * jsval)) (k : string) (base : jsval) : jsval :=
  match props with
  | [] => base
  | (k', v) :: rest => read_props rest k (if String.eqb k' k then v else base)
  end.

(** The number of unread alerts that carry a given id. *)
Definition unread_with_id (id : jsval) (l : list obj) : Z :=
  JS.count (λ a, Api.is_unread a && JS.strict_eq a.["id"] id) l.

(** An alert is already resolved in a state when every alert of its id there
    is read and has the status [handleResolve] would write. *)
Definition already_resolved (alert : obj) (st : AdminActions.state) : bool :=
  forallb (λ a, implb (JS.strict_eq a.["id"] alert.["id"])
                      (JS.strict_eq a.["is_read"] (JBool true)
                       && JS.strict_eq a.["status"] (AdminActions.resolved_status alert)))
          (AdminActions.alerts st).

(** The requests [handleResolve] issues for an alert. *)
Definition resolve_requests (alert : obj) : list AdminActions.request :=
  match AdminActions.resolve_request alert with
  | Some r => [r]
  | None => []
  end.

(** ** Records and an engine for the worked examples *)

(** An engine that parses no date string: the examples give their creation
    dates as numbers of milliseconds, which [new Date] takes as they are. *)
Definition numeric_dates_only : DateParse := λ _, None.

Definition always_ok : AdminActions.request → bool := λ _, true.

(** A message record with every property the messages endpoint lists. *)
Definition msg_m1 : obj :=
  JS.literal [ ("id", JStr "m1"); ("user_id", JStr "u1"); ("user_name", JStr "Asha");
               ("message_type", JStr "GENERAL"); ("title", JStr "Road blocked");
               ("content", JStr "Tree across the lane"); ("is_read", JBool false);
               ("created_at", JNum 1700000002000) ].

(** The same message once the backend has recorded it as read. *)
Definition msg_m1_read : obj := <["is_read" := JBool true]> msg_m1.

(** A message whose type is none of the three the statistics count. *)
Definition msg_m2 : obj :=
  JS.literal [ ("id", JStr "m2"); ("user_id", JStr "u2"); ("user_name", JStr "Ravi");
               ("message_type", JStr "ALERT"); ("title", JStr "Siren test");
               ("content", JStr "Monthly test"); ("is_read", JBool false);
               ("created_at", JNum 1700000001000) ].

Definition sos_s1 : obj :=
  JS.literal [ ("id", JStr "s1"); ("user_id", JStr "u3"); ("ability", JStr "BLIND");
               ("lat", JNum 12); ("lng", JNum 77); ("battery", JNum 40);
               ("status", JStr "NEED_HELP"); ("created_at", JNum 1700000003000) ].

(** An incident an administrator has verified but not resolved. *)
Definition inc_i1 : obj :=
  JS.literal [ ("id", JStr "i1"); ("user_id", JStr "u4"); ("type", JStr "FIRE");
               ("description", JStr "Smoke in the stairwell"); ("lat", JNum 12);
               ("lng", JNum 77); ("risk_level", JStr "HIGH"); ("risk_score", JNum 80);
               ("status", JStr "VERIFIED"); ("created_at", JNum 1700000001000) ].

(** An incident record whose risk level arrived as a number. *)
Definition inc_i2 : obj := <["risk_level" := JNum 3]> inc_i1.

(** ** pages/AuditLogs.jsx and its requests *)

Module Text.

(** [c.toUpperCase()] on one ASCII character. *)
Definition upper_ascii (c : ascii) : ascii :=
  let n := nat_of_ascii c in
  if (Nat.leb 97 n && Nat.leb n 122)%bool then ascii_of_nat (n - 32) else c.

(** The class [\w] of a regular expression: letters, digits and [_]. *)
Definition is_word (c : ascii) : bool :=
  let n := nat_of_ascii c in
  (Nat.leb 48 n && Nat.leb n 57) || (Nat.leb 65 n && Nat.leb n 90)
  || (Nat.leb 97 n && Nat.leb n 122) || Nat.eqb n 95.

(** A character of the ASCII range, on which the case conversions of the
    engine and of this file agree. *)
Definition is_ascii7 (c : ascii) : bool := Nat.ltb (nat_of_ascii c) 128.

Fixpoint all_chars (p : ascii → bool) (s : string) : bool :=
  match s with
  | EmptyString => true
  | String c s' => p c && all_chars p s'
  end.

(** One character through [.replace(/_/g, ' ').toLowerCase()]. *)
Definition spaced_lower (c : ascii) : ascii :=
  JS.lower_ascii (if Ascii.eqb c "_" then " "%char else c).

(** [s.replace(/_/g, ' ')] *)
Fixpoint replace_underscores (s : string) : string :=
  match s with
  | EmptyString => EmptyString
  | String c s' =>
      String (if Ascii.eqb c "_" then " "%char else c) (replace_underscores s')
  end.

(** [s.replace(/\b\w/g, char => char.toUpperCase())]: a word character is
    replaced when no word character stands before it.  [after_word] tells
    whether the character before the rest of the string is one. *)
Fixpoint capitalize_words (after_word : bool) (s : string) : string :=
  match s with
  | EmptyString => EmptyString
  | String c s' =>
      String (if is_word c && negb after_word then upper_ascii c else c)
             (capitalize_words (is_word c) s')
  end.

End Text.

Module AuditLogs.

(** [useState({ action: '', resourceType: '', page: 1, pageSize: 50 })] *)
Definition initial_filters : obj :=
  JS.literal [ ("action", JStr ""); ("resourceType", JStr "");
               ("page", JNum 1); ("pageSize", JNum 50) ].

(** [handleFilterChange(key, value)], as the update of the filters:
    [{ ...prev, [key]: value,
       page: key === 'action' || key === 'resourceType' ? 1 : prev.page }] *)
Definition handleFilterChange (key : string) (value : jsval) (prev : obj) : obj :=
  JS.spread prev
    [ (key, value);
      ("page", if String.eqb key "action" || String.eqb key "resourceType"
               then JNum 1 else prev.["page"]) ].

(** The [params] object [fetchAuditLogs] builds from the filters. *)
Definition fetchAuditLogs_params (filters : obj) : obj :=
  let params := JS.literal [ ("page", filters.["page"]);
                             ("page_size", filters.["pageSize"]) ] in
  let params := if JS.truthy filters.["action"]
                then <["action" := filters.["action"]]> params else params in
  if JS.truthy filters.["resourceType"]
  then <["resource_type" := filters.["resourceType"]]> params else params.

(** The query string parameters [getAuditLogs(params)] sends (services/api.js). *)
Definition getAuditLogs_query (params : obj) : obj :=
  JS.literal
    [ ("page", JS.or_else params.["page"] (JNum 1));
      ("page_size", JS.or_else params.["page_size"] (JNum 50));
      ("action", JS.or_else params.["action"] JNull);
      ("resource_type", JS.or_else params.["resource_type"] JNull);
      ("admin_id", JS.or_else params.["admin_id"] JNull) ].

(** What the audit log endpoint answers with, as far as the page reads it:
    the array under [audit_logs], if any, and the value under [total]. *)
Record audit_page : Type := AuditPage {
  audit_logs : option (list obj);
  page_total : jsval
}.

(** The state cells [fetchAuditLogs] writes. *)
Record state : Type := State {
  auditLogs : list obj;
  total : jsval;
  loading : bool;
  error : option string;
  filters : obj
}.

Definition initial : state :=
  {| auditLogs := []; total := JNum 0; loading := true; error := None;
     filters := initial_filters |}.

(** [fetchAuditLogs] up to its [await]: [setLoading(true); setError(null)]. *)
Definition fetchAuditLogs_begin (st : state) : state :=
  {| auditLogs := auditLogs st; total := total st; loading := true; error := None;
     filters := filters st |}.

(** [fetchAuditLogs] from its [await] on.  [getAuditLogs] rethrows a failed
    request and otherwise returns [response.data], which may be missing
    ([None]); reading [data.audit_logs] of a missing [data] throws, and
    either exception lands in the [catch]. *)
Definition fetchAuditLogs_end (data : completion (option audit_page)) (st : state) : state :=
  match data with
  | Normal (Some data) =>
      {| auditLogs := default [] (audit_logs data);
         total := JS.or_else (page_total data) (JNum 0);
         loading := false; error := error st; filters := filters st |}
  | Normal None | Throw _ =>
      {| auditLogs := auditLogs st; total := total st; loading := false;
         error := Some "Failed to load audit logs. Please try again.";
         filters := filters st |}
  end.

(** The filters after a series of [handleFilterChange(key, value)] calls. *)
Definition apply_changes (calls : list (string * jsval)) (f : obj) : obj :=
  foldl (λ f kv, handleFilterChange kv.1 kv.2 f) f calls.

(** The pagination bar, on numbers and for a page size that is not 0: it is
    rendered under [total > filters.pageSize], shows
    [Math.ceil(total / filters.pageSize)] pages, and disables its buttons
    under [filters.page === 1 || loading] and
    [filters.page * filters.pageSize >= total || loading]. *)
Definition pagination_shown (total pageSize : Z) : bool := Z.ltb pageSize total.
Definition page_count (total pageSize : Z) : Z := - ((- total) / pageSize).
Definition previous_disabled (page : Z) (loading : bool) : bool := Z.eqb page 1 || loading.
Definition next_disabled (page pageSize total : Z) (loading : bool) : bool :=
  Z.leb total (page * pageSize) || loading.

(** [formatAction(action)] *)
Definition formatAction (action : string) : string :=
  Text.capitalize_words false (JS.toLowerCase (Text.replace_underscores action)).

(** The [value] and [label] of the entries of [actionOptions]. *)
Definition actionOptions : list (string * string) :=
  [ ("", "All Actions");
    ("VIEW_INCIDENTS", "View Incidents");
    ("VERIFY_INCIDENT", "Verify Incident");
    ("RESOLVE_INCIDENT", "Resolve Incident");
    ("UPDATE_INCIDENT", "Update Incident");
    ("CREATE_ALERT", "Create Alert");
    ("LOGIN", "Login");
    ("LOGOUT", "Logout");
    ("FAILED_LOGIN", "Failed Login") ].

End AuditLogs.

(** ** pages/AdminActions.jsx: what a row shows *)

(** [date.toLocaleString()], which depends on the locale of the browser;
    [None] is an invalid date. *)
Class Locale := Date_toLocaleString : option Z → string.

Module AdminActionsRow.

Section Row.
Context `{DateParse} `{Locale}.

(** [formatTimestamp(timestamp)], with [now] the time value of
    [new Date()].  On an invalid date every comparison is with NaN and
    fails, which leaves the last [return]. *)
Definition formatTimestamp (now : Z) (timestamp : jsval) : string :=
  if negb (JS.truthy timestamp) then "Unknown"
  else
    match JS.Date_new timestamp with
    | None => Date_toLocaleString None
    | Some date =>
        let diff := now - date in
        let mins := diff / 60000 in
        let hours := diff / 3600000 in
        if Z.ltb mins 1 then "Just now"
        else if Z.ltb mins 60 then pretty mins +:+ "m ago"
        else if Z.ltb hours 24 then pretty hours +:+ "h ago"
        else Date_toLocaleString (Some date)
    end.

End Row.

(** [alert.title || `${alert.message_type} Alert`], [alert.content ||
    'No description'] and [alert.user_name || 'Unknown User'] *)
Definition shown_title (alert : obj) : jsval :=
  JS.or_else alert.["title"] (JStr (JS.ToString alert.["message_type"] +:+ " Alert")).
Definition shown_content (alert : obj) : jsval :=
  JS.or_else alert.["content"] (JStr "No description").
Definition shown_user (alert : obj) : jsval :=
  JS.or_else alert.["user_name"] (JStr "Unknown User").

End AdminActionsRow.

(** ** services/api.js: the other requests *)

Module Requests.

(** The answer to one GET that reads a collection: the request failed, or it
    brought [response.data] ([None] when it is missing) and, in it, the array
    under the key the caller reads ([None] when there is none). *)
Inductive reply : Type :=
  | Failed
  | Replied (data : option (option (list obj))).

(** [const response = await apiClient.get(path);
     return response.data.key || [];] *)
Definition collection_or_empty (r : reply) : completion (list obj) :=
  match r with
  | Failed => Throw "request failed"
  | Replied None => Throw "TypeError: cannot read properties of undefined"
  | Replied (Some None) => Normal []
  | Replied (Some (Some records)) => Normal records
  end.

(** A reader returns the paths it has requested, in order, and how it
    completes.  [server] gives the answer to a path. *)
Definition getUserSOSAlerts (server : string → reply) : list string * completion (list obj) :=
  (["/api/sos/user"], collection_or_empty (server "/api/sos/user")).

Definition getUserIncidents (server : string → reply) : list string * completion (list obj) :=
  (["/api/incidents/user"], collection_or_empty (server "/api/incidents/user")).

(** The readers with a fallback: the admin endpoint first, the user endpoint
    in the [catch], the empty array in the inner [catch]. *)
Definition with_fallback (first second : string) (server : string → reply)
  : list string * completion (list obj) :=
  match collection_or_empty (server first) with
  | Normal records => ([first], Normal records)
  | Throw _ =>
      match collection_or_empty (server second) with
      | Normal records => ([first; second], Normal records)
      | Throw _ => ([first; second], Normal [])
      end
  end.

Definition getAllSOSAlerts : (string → reply) → list string * completion (list obj) :=
  with_fallback "/api/admin/sos" "/api/sos/user".

Definition getAllIncidentsDirect : (string → reply) → list string * completion (list obj) :=
  with_fallback "/api/admin/incidents" "/api/incidents/user".

(** The legacy readers: [try { return await ...() } catch { return [] }] *)
Definition getSOS (server : string → reply) : list string * completion (list obj) :=
  ((getAllSOSAlerts server).1, JS.try_catch (getAllSOSAlerts server).2 (Normal [])).

Definition getIncidents (server : string → reply) : list string * completion (list obj) :=
  ((getAllIncidentsDirect server).1,
   JS.try_catch (getAllIncidentsDirect server).2 (Normal [])).






Definition sendIncident_body (incidentData : obj) : obj :=
  JS.literal
    [ ("title", JS.or_else incidentData.["title"]
                  (JStr ("Incident Report: " +:+ JS.ToString incidentData.["category"])));
      ("content", incidentData.["content"]);
      ("category", incidentData.["category"]);
      ("severity", incidentData.["severity"]);
      ("lat", incidentData.["lat"]);
      ("lng", incidentData.["lng"]);
      ("image_url", JS.or_else incidentData.["image_url"] JNull) ].

(** [sendIncident(incidentData)]: [simulateError(0.05)] throws before the
    [try] when its draw is below 0.05 ([simulated_error]); otherwise the body
    is posted and a failed request is rethrown.  The result is the bodies
    posted and the completion, with the response data under [data]. *)
Definition sendIncident (simulated_error : bool) (post : obj → completion jsval)
    (incidentData : obj) : list obj * completion obj :=
  if simulated_error then ([], Throw "Network error occurred")
  else
    let body := sendIncident_body incidentData in
    ([body],
     data ← post body;
     mret (JS.literal [ ("success", JBool true);
                        ("message", JStr "Incident reported successfully");
                        ("data", data) ])).

(** [sendUserStatus(statusData)] *)
Definition sendUserStatus (simulated_error : bool) (post : obj → completion jsval)
    (statusData : obj) : list obj * completion obj :=
  sendIncident simulated_error post
    (JS.literal
       [ ("title", JStr "Status Update");
         ("content", JS.or_else statusData.["message"] (JStr "User status update"));
         ("category", JS.or_else statusData.["type"] (JStr "general"));
         ("severity", JS.or_else statusData.["severity"] (JStr "low"));
         ("lat", statusData.["lat"]);
         ("lng", statusData.["lng"]) ]).

End Requests.

(** ** components/SystemHealthStrip.jsx and [getSystemHealth] *)

Module Health.

(** The health object as the strip reads it: its scalar properties, and the
    array under [services] when it has one. *)
Record health_t : Type := HealthData {
  fields : obj;
  services : option (list obj)
}.

(** The object [getSystemHealth] returns from its [catch]. *)
Definition mock : health_t :=
  {| fields := JS.literal [ ("status", JStr "healthy"); ("service", JStr "SenseSafe");
                            ("version", JStr "1.0.0") ];
     services := None |}.

(** [getSystemHealth()], given how the request to [/health] completes;
    [response.data] may be missing ([None]). *)
Definition getSystemHealth (response : completion (option health_t))
  : completion (option health_t) :=
  JS.try_catch response (Normal (Some mock)).

Inductive icon : Type := Cloud | Database | Wifi | Brain.

Definition getServiceIcon (serviceName : string) : icon :=
  let name := JS.toLowerCase serviceName in
  if String.eqb name "azure functions" then Cloud
  else if String.eqb name "cosmos db" || String.eqb name "database" then Database
  else if String.eqb name "notification hub" then Wifi
  else if String.eqb name "machine learning" || String.eqb name "ai services" then Brain
  else Cloud.

Definition getStatusColor (status : jsval) : string :=
  if JS.strict_eq status (JStr "Operational") then "text-green-600 bg-green-100"
  else if JS.strict_eq status (JStr "Degraded") then "text-yellow-600 bg-yellow-100"
  else if JS.strict_eq status (JStr "Down") then "text-red-600 bg-red-100"
  else "text-gray-600 bg-gray-100".

(** [name.split(' ')[0]] *)
Fixpoint first_word (name : string) : string :=
  match name with
  | EmptyString => EmptyString
  | String c rest => if Ascii.eqb c " " then EmptyString else String c (first_word rest)
  end.

Record chip : Type := Chip { chip_icon : icon; chip_color : string; chip_label : string }.

(** One entry of the service list; [service.name.toLowerCase()] throws
    unless the name is a string. *)
Definition service_chip (service : obj) : completion chip :=
  match service.["name"] with
  | JStr name =>
      Normal {| chip_icon := getServiceIcon name;
                chip_color := getStatusColor service.["status"];
                chip_label := first_word name |}
  | _ => Throw "TypeError: service.name.toLowerCase is not a function"
  end.

Inductive view : Type :=
  | LoadingStatus
  | Strip (operational : bool) (overall : jsval) (chips : list chip).

(** What the component renders for the [health] cell. *)
Definition render (health : option health_t) : completion view :=
  match health with
  | None => Normal LoadingStatus
  | Some h =>
      match services h with
      | None => Throw "TypeError: cannot read properties of undefined (reading 'slice')"
      | Some list =>
          chips ← mapM service_chip (take 4 list);
          mret (Strip (JS.strict_eq (fields h).["overall"] (JStr "Operational"))
                      (fields h).["overall"] chips)
      end
  end.

End Health.

(** ** More vocabulary *)

(** The counters of the admin actions page that follow its alert list. *)
Definition counters_match (st : AdminActions.state) : Prop :=
  AdminActions.total (AdminActions.stats st) = Z.of_nat (length (AdminActions.alerts st)) ∧
  AdminActions.sos_count (AdminActions.stats st)
    = JS.count (Api.has_type "SOS") (AdminActions.alerts st) ∧
  AdminActions.incident_count (AdminActions.stats st)
    = JS.count (Api.has_type "INCIDENT") (AdminActions.alerts st) ∧
  0 ≤ AdminActions.unread (AdminActions.stats st) ≤ AdminActions.total (AdminActions.stats st).

(** ** More records for the worked examples *)

(** A locale that renders a date as its time value. *)
Definition plain_locale : Locale :=
  λ date, match date with Some t => pretty t | None => "Invalid Date" end.

(** A server whose admin endpoints are down and whose user endpoints answer. *)
Definition admin_down : string → Requests.reply :=
  λ path,
    if String.eqb path "/api/sos/user" then Requests.Replied (Some (Some [sos_s1]))
    else if String.eqb path "/api/incidents/user"
         then Requests.Replied (Some (Some [inc_i1]))
         else Requests.Failed.

Definition status_report : obj :=
  JS.literal [ ("message", JStr "Safe at home"); ("lat", JNum 12); ("lng", JNum 77) ].

Definition post_ok : obj → completion jsval := λ _, Normal (JStr "created").


(** Filters with an action chosen. *)
Definition filters_verify : obj :=
  AuditLogs.apply_changes [("action", JStr "VERIFY_INCIDENT"); ("page", JNum 2)]
                          AuditLogs.initial_filters.

(** * Properties *)

(** ** Reading properties of object literals *)

Section Objects.
Implicit Types (o : obj) (k : string) (v : jsval).

Lemma get_insert_eq o k v : (<[k := v]> o).[k] = v.
Proof. unfold JS.get. by rewrite lookup_insert_eq. Qed.

Lemma get_insert_ne o k k' v : k ≠ k' → (<[k := v]> o).[k'] = o.[k'].
Proof. intros Hne. unfold JS.get. by rewrite lookup_insert_ne. Qed.

Lemma get_empty k : (∅ : obj).[k] = JUndefined.
Proof. unfold JS.get. by rewrite lookup_empty. Qed.

(** A property that reads as something other than [undefined] is stored. *)
Lemma get_defined_lookup o k v : o.[k] = v → v ≠ JUndefined → o !! k = Some v.
Proof.
  unfold JS.get. destruct (o !! k) as [w|]; simpl; intros Heq Hdef.
  - by subst.
  - by subst.
Qed.

(** Writing a property with the value it already stores changes nothing. *)
Lemma insert_same o k v : o.[k] = v → v ≠ JUndefined → <[k := v]> o = o.
Proof. intros Heq Hdef. apply insert_id. by apply get_defined_lookup. Qed.

End Objects.

Lemma get_spread (o : obj) props k :
  (JS.spread o props).[k] = read_props props k o.[k].
Proof.
  unfold JS.spread. revert o. induction props as [|[k' v] props IH]; intros o; [done|].
  simpl. rewrite IH. f_equal.
  destruct (String.eqb_spec k' k) as [->|Hne].
  - apply get_insert_eq.
  - by apply get_insert_ne.
Qed.

Lemma get_literal props k : (JS.literal props).[k] = read_props props k JUndefined.
Proof. unfold JS.literal. by rewrite <- (get_empty k), <- get_spread. Qed.

(** Resolves the reads of named properties of objects written as literals. *)
Ltac js_get :=
  rewrite ?get_literal, ?get_spread;
  cbv [read_props String.eqb Ascii.eqb Bool.eqb].

(** ** services/api.js *)

Section SourceAdapters.

Lemma formatSOS_message_type sos : (Api.formatSOS sos).["message_type"] = JStr "SOS".
Proof. unfold Api.formatSOS. by js_get. Qed.

Lemma formatSOS_id sos : (Api.formatSOS sos).["id"] = sos.["id"].
Proof. unfold Api.formatSOS. by js_get. Qed.

Lemma formatSOS_is_read sos :
  (Api.formatSOS sos).["is_read"] = JBool (JS.strict_eq sos.["status"] (JStr "SAFE")).
Proof. unfold Api.formatSOS. by js_get. Qed.

Lemma formatSOS_created_at sos : (Api.formatSOS sos).["created_at"] = sos.["created_at"].
Proof. unfold Api.formatSOS. by js_get. Qed.

Lemma formatMessage_other msg k :
  k ≠ "id" → k ≠ "sourceType" → k ≠ "is_read" →
  (Api.formatMessage msg).[k] = msg.[k].
Proof.
  intros Hid Hsrc Hread. unfold Api.formatMessage, JS.spread. simpl.
  by rewrite !get_insert_ne.
Qed.

Lemma formatMessage_is_read msg :
  (Api.formatMessage msg).["is_read"] = JBool (JS.truthy msg.["is_read"]).
Proof. unfold Api.formatMessage. by js_get. Qed.

End SourceAdapters.

(** ** [Array.prototype.sort] with a comparator that subtracts time values *)

Section StableSort.
Context {A : Type} (time : A → option Z).
#[local] Abbreviation cmp := (newest_first time).
#[local] Abbreviation tv := (time_value time).
#[local] Abbreviation has_date := (dated time).

Lemma sort_insert_perm (c : A → A → option Z) x l : JS.sort_insert c x l ≡ₚ x :: l.
Proof.
  induction l as [|y l IH]; simpl; [done|].
  destruct (Z.ltb 0 (JS.SortCompare c x y)); [|done].
  rewrite IH. apply Permutation_swap.
Qed.

Lemma Array_sort_perm (c : A → A → option Z) l : JS.Array_sort c l ≡ₚ l.
Proof.
  induction l as [|x l IH]; simpl; [done|].
  rewrite sort_insert_perm. by f_equiv.
Qed.

Lemma SortCompare_dated a b :
  has_date a → has_date b →
  JS.SortCompare cmp a b = tv b - tv a.
Proof.
  intros [ta Ha] [tb Hb].
  unfold JS.SortCompare, newest_first, time_value. by rewrite Ha, Hb.
Qed.

Lemma sort_insert_sorted x l :
  has_date x → Forall has_date l →
  StronglySorted (λ a b, tv b ≤ tv a) l →
  StronglySorted (λ a b, tv b ≤ tv a) (JS.sort_insert cmp x l).
Proof.
  intros Hx Hl Hsorted. induction Hsorted as [|y l Hsorted IH Hy]; simpl.
  - repeat constructor.
  - apply Forall_cons in Hl as [Hdy Hl].
    rewrite SortCompare_dated by done.
    destruct (Z.ltb_spec 0 (tv y - tv x)) as [Hlt|Hge].
    + constructor; [by apply IH|].
      rewrite sort_insert_perm. constructor; [lia|done].
    + constructor; [by constructor|].
      constructor; [lia|].
      eapply Forall_impl; [exact Hy|]. simpl. intros z Hz. lia.
Qed.

Lemma Array_sort_sorted l :
  Forall has_date l →
  StronglySorted (λ a b, tv b ≤ tv a) (JS.Array_sort cmp l).
Proof.
  induction 1 as [|x l Hx Hl IH]; simpl; [constructor|].
  apply sort_insert_sorted; [done| |done].
  by rewrite Array_sort_perm.
Qed.

(** Stability: the elements of one time value come out in the order they
    went in. *)
Lemma sort_insert_stable t x l :
  has_date x → Forall has_date l →
  filter (λ a, tv a = t) (JS.sort_insert cmp x l)
  = filter (λ a, tv a = t) (x :: l).
Proof.
  intros Hx Hl. induction Hl as [|y l Hy Hl IH]; simpl; [done|].
  rewrite SortCompare_dated by done.
  destruct (Z.ltb_spec 0 (tv y - tv x)) as [Hlt|Hge]; [|done].
  rewrite (filter_cons _ y), IH, !filter_cons.
  repeat case_decide; try done; lia.
Qed.

Lemma Array_sort_stable t l :
  Forall has_date l →
  filter (λ a, tv a = t) (JS.Array_sort cmp l)
  = filter (λ a, tv a = t) l.
Proof.
  induction 1 as [|x l Hx Hl IH]; simpl; [done|].
  rewrite sort_insert_stable; [|done|by rewrite Array_sort_perm].
  by rewrite !filter_cons, IH.
Qed.

(** With pairwise distinct time values, descending is strictly descending. *)
Lemma sorted_distinct_strict l :
  NoDup (tv <$> l) →
  StronglySorted (λ a b, tv b ≤ tv a) l →
  StronglySorted (λ a b, tv b < tv a) l.
Proof.
  intros Hnodup Hsorted. induction Hsorted as [|x l Hsorted IH Hx].
  - constructor.
  - rewrite fmap_cons in Hnodup. apply NoDup_cons in Hnodup as [Hnotin Hnodup].
    constructor; [by apply IH|].
    rewrite Forall_forall in Hx |- *. intros y Hy.
    assert (tv y ≠ tv x).
    { intros Heq. apply Hnotin. rewrite <- Heq. by apply list_elem_of_fmap_2. }
    specialize (Hx y Hy). lia.
Qed.

End StableSort.

(** ** The aggregator *)

Section Counting.
Context {A : Type}.
Implicit Types (p : A → bool) (l : list A).

Lemma count_nil p : JS.count p [] = 0.
Proof. done. Qed.

Lemma count_cons p x l :
  JS.count p (x :: l) = (if p x then 1 else 0) + JS.count p l.
Proof. unfold JS.count. simpl. destruct (p x); simpl; lia. Qed.

Lemma count_nonneg p l : 0 ≤ JS.count p l.
Proof. unfold JS.count. lia. Qed.

Lemma count_none p l : Forall (λ x, p x = false) l → JS.count p l = 0.
Proof.
  induction 1 as [|x l Hx Hl IH]; [done|].
  by rewrite count_cons, Hx, IH.
Qed.

Lemma num_or_same n : JS.num_or n n = n.
Proof. unfold JS.num_or. by destruct (Z.eqb n 0). Qed.

End Counting.

Section Aggregator.
Context `{DateParse}.

Lemma by_date_desc_newest_first : Api.by_date_desc = newest_first created.
Proof. done. Qed.

(** The three counted types and the rest partition the feed. *)
Lemma count_types_partition (l : list obj) :
  JS.count (Api.has_type "SOS") l + JS.count (Api.has_type "INCIDENT") l
  + JS.count (Api.has_type "GENERAL") l + JS.count (λ m, negb (known_type m)) l
  = Z.of_nat (length l).
Proof.
  induction l as [|m l IH]; [done|].
  rewrite !count_cons, length_cons, Nat2Z.inj_succ, <- IH.
  unfold known_type, Api.has_type, JS.strict_eq.
  repeat case_bool_decide; simpl; try lia; congruence.
Qed.

Lemma mapM_formatIncident_inv incidents formatted :
  mapM Api.formatIncident incidents = Normal formatted →
  Forall2 (λ inc a, Api.formatIncident inc = Normal a) incidents formatted.
Proof.
  revert formatted. induction incidents as [|inc incidents IH]; simpl; intros formatted Hm.
  - injection Hm as <-. constructor.
  - destruct (Api.formatIncident inc) as [a|e] eqn:Ha; simpl in Hm; [|done].
    destruct (mapM Api.formatIncident incidents) as [rest|e] eqn:Hrest; simpl in Hm; [|done].
    injection Hm as <-. constructor; [done|by apply IH].
Qed.

Lemma formatted_incidents_Forall (P : obj → Prop) incidents formatted :
  mapM Api.formatIncident incidents = Normal formatted →
  (∀ inc a, Api.formatIncident inc = Normal a → P a) →
  Forall P formatted.
Proof.
  intros Hm%mapM_formatIncident_inv HP.
  induction Hm as [|inc a incs fi Ha _ IH]; constructor; [by eapply HP|done].
Qed.

Lemma formatIncident_total inc :
  risk_level_text inc → ∃ a, Api.formatIncident inc = Normal a.
Proof.
  unfold risk_level_text, Api.formatIncident. intros Htext.
  destruct (inc.["risk_level"]); simpl; try done; eauto.
Qed.

Lemma mapM_formatIncident_total incidents :
  Forall risk_level_text incidents →
  ∃ formatted, mapM Api.formatIncident incidents = Normal formatted.
Proof.
  induction 1 as [|inc incidents Hinc Hrest [rest IH]]; simpl; [by eexists|].
  destruct (formatIncident_total inc Hinc) as [a ->]. simpl.
  rewrite IH. simpl. by eexists.
Qed.

(** What the [try] block returns when no adapter throws. *)
Lemma getAllAlertsForAdmin_try_inv m s i snap :
  Api.getAllAlertsForAdmin_try m s i = Normal snap →
  ∃ formattedIncidents,
    mapM Api.formatIncident (Api.extract i) = Normal formattedIncidents ∧
    Api.messages snap =
      JS.Array_sort Api.by_date_desc
        ((Api.formatMessage <$> Api.extract m) ++ (Api.formatSOS <$> Api.extract s)
         ++ formattedIncidents) ∧
    Api.stats snap = Api.compute_stats (Api.messages snap).
Proof.
  unfold Api.getAllAlertsForAdmin_try. intros Hsnap.
  destruct (mapM Api.formatIncident (Api.extract i)) as [fi|e]; simpl in Hsnap; [|done].
  injection Hsnap as <-. by exists fi.
Qed.

Lemma getAllAlertsForAdmin_inv m s i snap :
  Api.getAllAlertsForAdmin m s i = Normal snap →
  Api.getAllAlertsForAdmin_try m s i = Normal snap ∨ snap = Api.empty_snapshot.
Proof.
  unfold Api.getAllAlertsForAdmin, JS.try_catch.
  destruct (Api.getAllAlertsForAdmin_try m s i) as [snap'|e]; intros Hsnap.
  - by left.
  - right. by injection Hsnap as <-.
Qed.

Lemma getAllAlertsForAdmin_returns m s i :
  ∃ snap, Api.getAllAlertsForAdmin m s i = Normal snap.
Proof.
  unfold Api.getAllAlertsForAdmin, JS.try_catch.
  destruct (Api.getAllAlertsForAdmin_try m s i); by eexists.
Qed.

(** The statistics of a returned snapshot are those of its own feed. *)
Lemma getAllAlertsForAdmin_stats m s i snap :
  Api.getAllAlertsForAdmin m s i = Normal snap →
  Api.stats snap = Api.compute_stats (Api.messages snap).
Proof.
  intros [Htry| ->]%getAllAlertsForAdmin_inv; [|done].
  by apply getAllAlertsForAdmin_try_inv in Htry as (fi & _ & _ & Hstats).
Qed.

End Aggregator.

Section AggregatorProperties.
Context `{DateParse}.

Lemma formatIncident_fields inc a :
  Api.formatIncident inc = Normal a →
  a.["id"] = inc.["id"] ∧ a.["_backendId"] = inc.["id"] ∧
  a.["message_type"] = JStr "INCIDENT" ∧ a.["sourceType"] = JStr "INCIDENT" ∧
  a.["created_at"] = inc.["created_at"] ∧ a.["status"] = inc.["status"] ∧
  a.["content"] = inc.["description"] ∧
  a.["title"] = JStr ("Incident: " +:+ JS.ToString inc.["type"]) ∧
  (∃ b, a.["is_read"] = JBool b) ∧ (∃ sev, a.["severity"] = JStr sev).
Proof.
  unfold Api.formatIncident. intros Ha.
  destruct (Api.optional_toLowerCase inc.["risk_level"]) as [lowered|e] eqn:Hlow;
    simpl in Ha; [|done].
  injection Ha as <-. js_get. repeat split; try done; [by eexists|].
  unfold Api.optional_toLowerCase in Hlow.
  destruct (inc.["risk_level"]) as [| | | |level]; simplify_eq; try by eexists.
  unfold JS.or_else. destruct (JS.truthy _); by eexists.
Qed.

Lemma known_type_formatMessage msg :
  known_type (Api.formatMessage msg) = known_type msg.
Proof. unfold known_type, Api.has_type. by rewrite formatMessage_other. Qed.

Lemma known_type_formatSOS sos : known_type (Api.formatSOS sos) = true.
Proof. unfold known_type, Api.has_type. by rewrite formatSOS_message_type. Qed.

Lemma known_type_formatIncident inc a :
  Api.formatIncident inc = Normal a → known_type a = true.
Proof.
  intros (_ & _ & Htype & _)%formatIncident_fields.
  unfold known_type, Api.has_type. by rewrite Htype.
Qed.

(** When the message records carry one of the three types, so does every
    alert of the feed. *)
Lemma feed_known_types m s i snap :
  Api.getAllAlertsForAdmin m s i = Normal snap →
  Forall (λ msg, known_type msg = true) (Api.extract m) →
  Forall (λ a, known_type a = true) (Api.messages snap).
Proof.
  intros [Htry| ->]%getAllAlertsForAdmin_inv Hmsgs; [|by constructor].
  apply getAllAlertsForAdmin_try_inv in Htry as (fi & Hfi & -> & _).
  rewrite Array_sort_perm. rewrite !Forall_app. repeat split.
  - rewrite Forall_fmap. eapply Forall_impl; [exact Hmsgs|].
    intros msg Hmsg. simpl. by rewrite known_type_formatMessage.
  - rewrite Forall_fmap. apply Forall_true. intros sos. apply known_type_formatSOS.
  - eapply formatted_incidents_Forall; [exact Hfi|].
    intros inc a Ha. by eapply known_type_formatIncident.
Qed.

(** C1, as the code has it: in every snapshot one aggregation returns,
    [stats.total] is the length of the feed and [stats.unread] the number of
    alerts that are not read; the three [by_type] counters add up to the
    total less the alerts whose [message_type] is none of SOS, INCIDENT and
    GENERAL, hence to the total when every message record carries one of
    these three types. *)
Theorem stats_match_feed m s i snap :
  Api.getAllAlertsForAdmin m s i = Normal snap →
  let st := Api.stats snap in
  Api.total st = Z.of_nat (length (Api.messages snap)) ∧
  Api.unread st = JS.count Api.is_unread (Api.messages snap) ∧
  Api.SOS (Api.by_type st) + Api.INCIDENT (Api.by_type st) + Api.GENERAL (Api.by_type st)
    = Api.total st - JS.count (λ a, negb (known_type a)) (Api.messages snap) ∧
  (Forall (λ msg, known_type msg = true) (Api.extract m) →
   Api.SOS (Api.by_type st) + Api.INCIDENT (Api.by_type st) + Api.GENERAL (Api.by_type st)
     = Api.total st).
Proof.
  intros Hsnap. simpl.
  rewrite (getAllAlertsForAdmin_stats _ _ _ _ Hsnap). simpl.
  pose proof (count_types_partition (Api.messages snap)) as Hpart.
  repeat split; try done; [rewrite <- Hpart; ring|].
  intros Hmsgs. rewrite <- Hpart. rewrite (count_none (λ a, negb (known_type a))); [ring|].
  eapply Forall_impl; [by eapply feed_known_types|].
  intros a Ha. simpl in *. by rewrite Ha.
Qed.

(** The feed of well-formed records: the normalized records of the three
    extracted collections, and as many alerts as there are records. *)
Lemma aggregation_feed m s i :
  Forall risk_level_text (Api.extract i) →
  ∃ snap formattedIncidents,
    Api.getAllAlertsForAdmin m s i = Normal snap ∧
    mapM Api.formatIncident (Api.extract i) = Normal formattedIncidents ∧
    Api.messages snap ≡ₚ
      (Api.formatMessage <$> Api.extract m) ++ (Api.formatSOS <$> Api.extract s)
      ++ formattedIncidents ∧
    Api.total (Api.stats snap)
      = Z.of_nat (length (Api.extract m) + length (Api.extract s) + length (Api.extract i)).
Proof.
  intros Hwell. destruct (mapM_formatIncident_total _ Hwell) as [fi Hfi].
  assert (Api.getAllAlertsForAdmin m s i = Normal
    {| Api.messages := JS.Array_sort Api.by_date_desc
         ((Api.formatMessage <$> Api.extract m) ++ (Api.formatSOS <$> Api.extract s) ++ fi);
       Api.stats := Api.compute_stats (JS.Array_sort Api.by_date_desc
         ((Api.formatMessage <$> Api.extract m) ++ (Api.formatSOS <$> Api.extract s) ++ fi)) |})
    as Hsnap.
  { unfold Api.getAllAlertsForAdmin, Api.getAllAlertsForAdmin_try. by rewrite Hfi. }
  eexists _, fi. split; [exact Hsnap|]. split; [done|]. simpl.
  split; [apply Array_sort_perm|].
  rewrite Array_sort_perm, !length_app, !length_fmap.
  apply mapM_formatIncident_inv, Forall2_length in Hfi. lia.
Qed.

Lemma extract_response outcome : Api.extract (response outcome) = default [] outcome.
Proof. by destruct outcome. Qed.

(** C5: whatever way the three requests settle, the aggregation returns a
    snapshot and throws nothing.  A request that failed contributes an empty
    collection and a request that was answered contributes the records of its
    answer: when the incident records are well formed, the feed holds exactly
    the normalized messages, SOS alerts and incidents that the answered
    requests brought, and the total is their number; so the feed holds no SOS
    alert when the SOS request failed.  When all three requests fail the
    snapshot is the empty one, with a total of 0. *)
Theorem aggregation_fails_soft m s i :
  (∃ snap, Api.getAllAlertsForAdmin m s i = Normal snap) ∧
  Api.extract Api.Rejected = [] ∧
  (∀ records, Api.extract (Api.Fulfilled (Some records)) = records) ∧
  Api.getAllAlertsForAdmin m s i =
    Api.getAllAlertsForAdmin (Api.Fulfilled (Some (Api.extract m)))
                             (Api.Fulfilled (Some (Api.extract s)))
                             (Api.Fulfilled (Some (Api.extract i))) ∧
  (Forall risk_level_text (Api.extract i) →
   ∃ snap formattedIncidents,
     Api.getAllAlertsForAdmin m s i = Normal snap ∧
     mapM Api.formatIncident (Api.extract i) = Normal formattedIncidents ∧
     Api.messages snap ≡ₚ
       (Api.formatMessage <$> Api.extract m) ++ (Api.formatSOS <$> Api.extract s)
       ++ formattedIncidents ∧
     (s = Api.Rejected →
      Api.messages snap ≡ₚ (Api.formatMessage <$> Api.extract m) ++ formattedIncidents ∧
      Forall (λ a, a.["sourceType"] = JStr "MESSAGE" ∨ a.["sourceType"] = JStr "INCIDENT")
             (Api.messages snap))) ∧
  (∀ messages sosAlerts incidents : option (list obj),
     Forall risk_level_text (default [] incidents) →
     ∃ snap formattedIncidents,
       Api.getAllAlertsForAdmin (response messages) (response sosAlerts) (response incidents)
         = Normal snap ∧
       mapM Api.formatIncident (default [] incidents) = Normal formattedIncidents ∧
       Api.messages snap ≡ₚ
         (Api.formatMessage <$> default [] messages)
         ++ (Api.formatSOS <$> default [] sosAlerts) ++ formattedIncidents ∧
       Api.total (Api.stats snap)
         = Z.of_nat (length (default [] messages) + length (default [] sosAlerts)
                     + length (default [] incidents))) ∧
  Api.getAllAlertsForAdmin Api.Rejected Api.Rejected Api.Rejected
    = Normal Api.empty_snapshot ∧
  Api.total (Api.stats Api.empty_snapshot) = 0 ∧ Api.messages Api.empty_snapshot = [].
Proof.
  split; [apply getAllAlertsForAdmin_returns|].
  split; [done|]. split; [done|]. split; [done|]. split; [|split; [|done]].
  - intros Hwell.
    destruct (aggregation_feed m s i Hwell) as (snap & fi & Hsnap & Hfi & Hfeed & _).
    exists snap, fi. split; [exact Hsnap|]. split; [done|]. split; [done|].
    intros ->. simpl in Hfeed. split; [done|].
    rewrite Hfeed. rewrite Forall_app. split.
    + rewrite Forall_fmap. apply Forall_true. intros msg. left.
      unfold Api.formatMessage. by js_get.
    + eapply formatted_incidents_Forall; [exact Hfi|].
      intros inc a Ha. right.
      by apply formatIncident_fields in Ha as (_ & _ & _ & Hsrc & _).
  - intros messages sosAlerts incidents Hwell.
    rewrite <- extract_response in Hwell.
    destruct (aggregation_feed (response messages) (response sosAlerts) _ Hwell)
      as (snap & fi & Hsnap & Hfi & Hfeed & Htotal).
    exists snap, fi.
    rewrite <- (extract_response messages), <- (extract_response sosAlerts),
      <- (extract_response incidents).
    split; [exact Hsnap|]. split; [exact Hfi|]. split; [exact Hfeed|exact Htotal].
Qed.

End AggregatorProperties.

Section FeedOrder.
Context `{DateParse}.

Lemma created_formatMessage msg : created (Api.formatMessage msg) = created msg.
Proof. unfold created. by rewrite formatMessage_other. Qed.

Lemma created_formatSOS sos : created (Api.formatSOS sos) = created sos.
Proof. unfold created. by rewrite formatSOS_created_at. Qed.

Lemma created_formatIncident inc a :
  Api.formatIncident inc = Normal a → created a = created inc.
Proof.
  intros (_ & _ & _ & _ & Hcreated & _)%formatIncident_fields.
  unfold created. by rewrite Hcreated.
Qed.

Lemma formatted_incidents_dated incidents formatted :
  mapM Api.formatIncident incidents = Normal formatted →
  Forall (dated created) incidents → Forall (dated created) formatted.
Proof.
  intros Hm%mapM_formatIncident_inv.
  induction Hm as [|inc a incs fi Ha _ IH]; intros Hd; [constructor|].
  apply Forall_cons in Hd as [Hinc Hincs]. constructor; [|by apply IH].
  unfold dated. by rewrite (created_formatIncident _ _ Ha).
Qed.

(** C9: on well-formed records that all carry a valid date, the feed is the
    concatenation of the normalized messages, SOS alerts and incidents, in
    that order, put in descending order of [created_at] by a stable sort: it
    is a permutation of the concatenation, it is descending, alerts of one
    time value keep the order they have in the concatenation, and with
    pairwise distinct time values the order is strictly descending. *)
Theorem feed_newest_first m s i :
  Forall risk_level_text (Api.extract i) →
  Forall (dated created) (Api.extract m ++ Api.extract s ++ Api.extract i) →
  ∃ snap formattedIncidents,
    Api.getAllAlertsForAdmin m s i = Normal snap ∧
    mapM Api.formatIncident (Api.extract i) = Normal formattedIncidents ∧
    let allItems : list obj :=
      ((Api.formatMessage <$> Api.extract m) ++ (Api.formatSOS <$> Api.extract s)
       ++ formattedIncidents)%list in
    Api.messages snap ≡ₚ allItems ∧
    StronglySorted (λ a b, time_value created b ≤ time_value created a)
                   (Api.messages snap) ∧
    (∀ t, filter (λ a, time_value created a = t) (Api.messages snap)
          = filter (λ a, time_value created a = t) allItems) ∧
    (NoDup (time_value created <$> allItems) →
     StronglySorted (λ a b, time_value created b < time_value created a)
                    (Api.messages snap)).
Proof.
  intros Hwell Hdated. destruct (mapM_formatIncident_total _ Hwell) as [fi Hfi].
  apply Forall_app in Hdated as [Hdm Hdated]. apply Forall_app in Hdated as [Hds Hdi].
  set (allItems := ((Api.formatMessage <$> Api.extract m)
                    ++ (Api.formatSOS <$> Api.extract s) ++ fi)%list).
  assert (Forall (dated created) allItems) as Hitems.
  { unfold allItems. rewrite !Forall_app, !Forall_fmap. repeat split.
    - eapply Forall_impl; [exact Hdm|]. intros msg Hmsg. simpl.
      unfold dated. by rewrite created_formatMessage.
    - eapply Forall_impl; [exact Hds|]. intros sos Hsos. simpl.
      unfold dated. by rewrite created_formatSOS.
    - by eapply formatted_incidents_dated. }
  exists {| Api.messages := JS.Array_sort Api.by_date_desc allItems;
            Api.stats := Api.compute_stats (JS.Array_sort Api.by_date_desc allItems) |}, fi.
  split.
  { unfold Api.getAllAlertsForAdmin, Api.getAllAlertsForAdmin_try. by rewrite Hfi. }
  split; [done|]. simpl. fold allItems. rewrite by_date_desc_newest_first.
  assert (StronglySorted (λ a b, time_value created b ≤ time_value created a)
            (JS.Array_sort (newest_first created) allItems)) as Hsorted
    by by apply Array_sort_sorted.
  split; [apply Array_sort_perm|]. split; [done|].
  split; [intros t; by apply Array_sort_stable|].
  intros Hnodup. apply sorted_distinct_strict; [|done].
  by rewrite Array_sort_perm.
Qed.

End FeedOrder.

Section AdapterProperties.

(** C7: the SOS adapter gives every record the type SOS and the severity
    'critical', marks it read exactly when its status is 'SAFE', and titles
    it 'SOS Alert (<ability>)', with 'Unknown' standing in for a missing
    ability; the record [{id: "s1", status: "NEED_HELP", ability: "BLIND"}]
    comes out unread, critical, of type SOS and titled 'SOS Alert (BLIND)'. *)
Theorem sos_adapter_fields (sos : obj) :
  (Api.formatSOS sos).["message_type"] = JStr "SOS" ∧
  (Api.formatSOS sos).["severity"] = JStr "critical" ∧
  (∃ b, (Api.formatSOS sos).["is_read"] = JBool b ∧
        (b = true ↔ sos.["status"] = JStr "SAFE")) ∧
  (Api.formatSOS sos).["title"]
    = JStr ("SOS Alert (" +:+ JS.ToString (JS.or_else sos.["ability"] (JStr "Unknown")) +:+ ")") ∧
  (∀ ability, sos.["ability"] = JStr ability → ability ≠ "" →
     (Api.formatSOS sos).["title"] = JStr ("SOS Alert (" +:+ ability +:+ ")")) ∧
  (∀ t0,
     let s1 := JS.literal [("id", JStr "s1"); ("status", JStr "NEED_HELP");
                           ("ability", JStr "BLIND"); ("created_at", t0)] in
     (Api.formatSOS s1).["message_type"] = JStr "SOS" ∧
     (Api.formatSOS s1).["severity"] = JStr "critical" ∧
     (Api.formatSOS s1).["is_read"] = JBool false ∧
     (Api.formatSOS s1).["title"] = JStr "SOS Alert (BLIND)").
Proof.
  assert ((Api.formatSOS sos).["title"]
    = JStr ("SOS Alert (" +:+ JS.ToString (JS.or_else sos.["ability"] (JStr "Unknown")) +:+ ")"))
    as Htitle by (unfold Api.formatSOS; by js_get).
  split; [apply formatSOS_message_type|].
  split; [unfold Api.formatSOS; by js_get|].
  split.
  { eexists. split; [apply formatSOS_is_read|].
    unfold JS.strict_eq. by rewrite bool_decide_eq_true. }
  split; [done|]. split.
  - intros ability Hability Hnonempty. rewrite Htitle, Hability.
    unfold JS.or_else. simpl. destruct ability; [done|]. done.
  - intros t0. simpl. by js_get.
Qed.

(** C8, as the code has it: the SOS adapter fills every property of the
    unified alert once the record has an id, a status and a creation date.
    The incident adapter produces an alert, with every property filled, once
    the record has these and a description and its risk level is absent,
    null or text; on a risk level that is a boolean or a number it throws and
    produces no alert.  Both copy the upstream id to [id] and [_backendId].
    The message adapter copies the upstream id to [id], sets [sourceType]
    and a boolean [is_read], and passes every other property of the record
    through as it is: it adds no [_backendId], and [title], [content],
    [severity], [status] and [created_at] are there only when the record has
    them. *)
Theorem adapters_fill_fields :
  (∀ sos,
     present sos "id" → present sos "status" → present sos "created_at" →
     Forall (present (Api.formatSOS sos)) canonical_fields ∧
     (Api.formatSOS sos).["id"] = sos.["id"] ∧
     (Api.formatSOS sos).["_backendId"] = sos.["id"]) ∧
  (∀ inc,
     risk_level_text inc →
     present inc "id" → present inc "status" → present inc "created_at" →
     present inc "description" →
     ∃ a, Api.formatIncident inc = Normal a ∧
          Forall (present a) canonical_fields ∧
          a.["id"] = inc.["id"] ∧ a.["_backendId"] = inc.["id"]) ∧
  (∀ inc a,
     Api.formatIncident inc = Normal a →
     risk_level_text inc ∧ a.["id"] = inc.["id"] ∧ a.["_backendId"] = inc.["id"]) ∧
  (∀ inc, ¬ risk_level_text inc → ∃ e, Api.formatIncident inc = Throw e) ∧
  (∀ msg,
     (Api.formatMessage msg).["id"] = msg.["id"] ∧
     (Api.formatMessage msg).["sourceType"] = JStr "MESSAGE" ∧
     (Api.formatMessage msg).["is_read"] = JBool (JS.truthy msg.["is_read"]) ∧
     (∀ k, k ≠ "id" → k ≠ "sourceType" → k ≠ "is_read" →
           (Api.formatMessage msg).[k] = msg.[k]) ∧
     (Api.formatMessage msg).["_backendId"] = msg.["_backendId"]).
Proof.
  split; [|split; [|split; [|split]]].
  - intros sos Hid Hstatus Hcreated. unfold present in *.
    split; [|split; unfold Api.formatSOS; by js_get].
    unfold canonical_fields, Api.formatSOS. repeat constructor; unfold present; by js_get.
  - intros inc Htext Hid Hstatus Hcreated Hdescr. unfold present in *.
    destruct (formatIncident_total inc Htext) as [a Ha]. exists a.
    destruct (formatIncident_fields _ _ Ha)
      as (Ha_id & Ha_bid & Ha_type & Ha_src & Ha_created & Ha_status & Ha_content
          & Ha_title & [b Ha_read] & [sev Ha_sev]).
    split; [done|]. split; [|done].
    unfold canonical_fields. repeat constructor; unfold present; congruence.
  - intros inc a Ha.
    destruct (formatIncident_fields _ _ Ha) as (Ha_id & Ha_bid & _).
    split; [|done].
    unfold Api.formatIncident, Api.optional_toLowerCase in Ha. unfold risk_level_text.
    by destruct (inc.["risk_level"]).
  - intros inc Hbad. unfold risk_level_text in Hbad.
    unfold Api.formatIncident, Api.optional_toLowerCase.
    destruct (inc.["risk_level"]); try done; by eexists.
  - intros msg. split; [unfold Api.formatMessage; by js_get|].
    split; [unfold Api.formatMessage; by js_get|].
    split; [apply formatMessage_is_read|].
    split; [apply formatMessage_other|by apply formatMessage_other].
Qed.

End AdapterProperties.

(** ** pages/AdminActions.jsx *)

Section LocalUpdates.
Implicit Types (st : AdminActions.state) (alert a : obj) (l : list obj).

Lemma is_unread_marked a :
  Api.is_unread (JS.spread a [("is_read", JBool true)]) = false.
Proof. unfold Api.is_unread. by js_get. Qed.

Lemma is_unread_resolved a status :
  Api.is_unread (JS.spread a [("is_read", JBool true); ("status", status)]) = false.
Proof. unfold Api.is_unread. by js_get. Qed.

(** Overwriting the selected alerts with read ones takes exactly the
    selected unread alerts out of the unread count. *)
Lemma count_unread_override (selected : obj → bool) (f : obj → obj) l :
  (∀ a, Api.is_unread (f a) = false) →
  JS.count Api.is_unread ((λ a, if selected a then f a else a) <$> l)
  = JS.count Api.is_unread l - JS.count (λ a, Api.is_unread a && selected a) l.
Proof.
  intros Hread. induction l as [|a l IH]; [done|].
  rewrite fmap_cons, !count_cons, IH.
  destruct (selected a) eqn:Hsel.
  - rewrite Hread. destruct (Api.is_unread a); simpl; ring.
  - destruct (Api.is_unread a); simpl; ring.
Qed.

Lemma unread_with_id_bounds id l :
  0 ≤ unread_with_id id l ≤ JS.count Api.is_unread l.
Proof.
  unfold unread_with_id. split; [apply count_nonneg|].
  induction l as [|a l IH]; [done|].
  rewrite !count_cons. destruct (Api.is_unread a); simpl.
  - destruct (JS.strict_eq _ _); apply Z.add_le_mono; done.
  - by apply Z.add_le_mono.
Qed.

Lemma resolve_locally_unread alert st :
  JS.count Api.is_unread (AdminActions.alerts (AdminActions.resolve_locally alert st))
  = JS.count Api.is_unread (AdminActions.alerts st)
    - unread_with_id alert.["id"] (AdminActions.alerts st).
Proof.
  unfold AdminActions.resolve_locally, unread_with_id. simpl.
  apply (count_unread_override (λ a, JS.strict_eq a.["id"] alert.["id"])
           (λ a, JS.spread a [("is_read", JBool true);
                              ("status", AdminActions.resolved_status alert)])).
  intros a. apply is_unread_resolved.
Qed.

Lemma mark_read_locally_unread alertId st :
  JS.count Api.is_unread (AdminActions.alerts (AdminActions.mark_read_locally alertId st))
  = JS.count Api.is_unread (AdminActions.alerts st)
    - unread_with_id alertId (AdminActions.alerts st).
Proof.
  unfold AdminActions.mark_read_locally, unread_with_id. simpl.
  apply (count_unread_override (λ a, JS.strict_eq a.["id"] alertId)
           (λ a, JS.spread a [("is_read", JBool true)])).
  intros a. apply is_unread_marked.
Qed.

(** The clamped decrement agrees with the recount exactly when one unread
    alert was overwritten, or when nothing was unread. *)
Lemma decrement_matches_recount (before hit : Z) :
  0 ≤ hit ≤ before →
  Z.max (before - 1) 0 = before - hit ↔ hit = 1 ∨ before = 0.
Proof. lia. Qed.

Lemma handleResolve_accepted backend alert st :
  (∀ r, AdminActions.resolve_request alert = Some r → backend r = true) →
  AdminActions.handleResolve backend alert st
  = (resolve_requests alert, AdminActions.resolve_locally alert st).
Proof.
  unfold AdminActions.handleResolve, resolve_requests. intros Hok.
  destruct (AdminActions.resolve_request alert) as [r|]; [|done].
  by rewrite (Hok r).
Qed.

End LocalUpdates.

Section Handlers.
Implicit Types (st : AdminActions.state) (alert a : obj) (l : list obj).

Lemma fmap_fixed (f : obj → obj) l : (∀ a, a ∈ l → f a = a) → f <$> l = l.
Proof.
  induction l as [|a l IH]; intros Hfix; [done|].
  rewrite fmap_cons, Hfix, IH; [done| |left].
  intros b Hb. apply Hfix. by right.
Qed.

Lemma resolve_locally_alerts alert st :
  Forall2 (λ a a',
      if JS.strict_eq a.["id"] alert.["id"]
      then a'.["is_read"] = JBool true ∧
           a'.["status"] = AdminActions.resolved_status alert ∧
           ∀ k, k ≠ "is_read" → k ≠ "status" → a'.[k] = a.[k]
      else a' = a)
    (AdminActions.alerts st)
    (AdminActions.alerts (AdminActions.resolve_locally alert st)).
Proof.
  unfold AdminActions.resolve_locally. simpl.
  apply Forall2_fmap_r, Forall_Forall2_diag, Forall_true. intros a. simpl.
  destruct (JS.strict_eq a.["id"] alert.["id"]); [|done].
  repeat split; try by js_get.
  intros k Hread Hstatus. unfold JS.spread. simpl. by rewrite !get_insert_ne.
Qed.

Lemma mark_read_locally_alerts alertId st :
  Forall2 (λ a a',
      if JS.strict_eq a.["id"] alertId
      then a'.["is_read"] = JBool true ∧ ∀ k, k ≠ "is_read" → a'.[k] = a.[k]
      else a' = a)
    (AdminActions.alerts st)
    (AdminActions.alerts (AdminActions.mark_read_locally alertId st)).
Proof.
  unfold AdminActions.mark_read_locally. simpl.
  apply Forall2_fmap_r, Forall_Forall2_diag, Forall_true. intros a. simpl.
  destruct (JS.strict_eq a.["id"] alertId); [|done].
  split; [by js_get|].
  intros k Hread. unfold JS.spread. simpl. by rewrite get_insert_ne.
Qed.

Lemma consistent_after_decrement st st' id :
  AdminActions.stats st' = AdminActions.decrement_unread (AdminActions.stats st) →
  JS.count Api.is_unread (AdminActions.alerts st')
  = JS.count Api.is_unread (AdminActions.alerts st)
    - unread_with_id id (AdminActions.alerts st) →
  AdminActions.unread_consistent st →
  AdminActions.unread_consistent st' ↔
    unread_with_id id (AdminActions.alerts st) = 1
    ∨ AdminActions.unread (AdminActions.stats st) = 0.
Proof.
  unfold AdminActions.unread_consistent. intros -> -> Hcons. simpl.
  rewrite Hcons. apply decrement_matches_recount, unread_with_id_bounds.
Qed.

(** C2, as the code has it: when [handleResolve] or [handleMarkRead]
    succeeds, every alert that carries the id is overwritten as read (and,
    on resolve, with the status SAFE for an SOS and RESOLVED otherwise), the
    other alerts are kept, and [stats.unread] becomes
    [max(prev.unread - 1, 0)] with the other counters kept: the counter is
    decremented, not recounted.  From a state whose counter matched its
    list, the counter matches the list afterwards exactly when one unread
    alert carried the id, or nothing was unread. *)
Theorem mutation_updates_state backend st :
  (∀ alert,
     (∀ r, AdminActions.resolve_request alert = Some r → backend r = true) →
     let st' := (AdminActions.handleResolve backend alert st).2 in
     Forall2 (λ a a',
         if JS.strict_eq a.["id"] alert.["id"]
         then a'.["is_read"] = JBool true ∧
              a'.["status"] = AdminActions.resolved_status alert ∧
              ∀ k, k ≠ "is_read" → k ≠ "status" → a'.[k] = a.[k]
         else a' = a)
       (AdminActions.alerts st) (AdminActions.alerts st') ∧
     AdminActions.stats st' = AdminActions.decrement_unread (AdminActions.stats st) ∧
     JS.count Api.is_unread (AdminActions.alerts st')
     = JS.count Api.is_unread (AdminActions.alerts st)
       - unread_with_id alert.["id"] (AdminActions.alerts st) ∧
     (AdminActions.unread_consistent st →
      AdminActions.unread_consistent st' ↔
        unread_with_id alert.["id"] (AdminActions.alerts st) = 1
        ∨ AdminActions.unread (AdminActions.stats st) = 0)) ∧
  (∀ alertId,
     backend (AdminActions.markMessageAsRead alertId) = true →
     let st' := (AdminActions.handleMarkRead backend alertId st).2 in
     Forall2 (λ a a',
         if JS.strict_eq a.["id"] alertId
         then a'.["is_read"] = JBool true ∧ ∀ k, k ≠ "is_read" → a'.[k] = a.[k]
         else a' = a)
       (AdminActions.alerts st) (AdminActions.alerts st') ∧
     AdminActions.stats st' = AdminActions.decrement_unread (AdminActions.stats st) ∧
     JS.count Api.is_unread (AdminActions.alerts st')
     = JS.count Api.is_unread (AdminActions.alerts st)
       - unread_with_id alertId (AdminActions.alerts st) ∧
     (AdminActions.unread_consistent st →
      AdminActions.unread_consistent st' ↔
        unread_with_id alertId (AdminActions.alerts st) = 1
        ∨ AdminActions.unread (AdminActions.stats st) = 0)).
Proof.
  split.
  - intros alert Hok. rewrite handleResolve_accepted by done. simpl.
    split; [apply resolve_locally_alerts|]. split; [done|].
    split; [apply resolve_locally_unread|].
    apply consistent_after_decrement; [done|apply resolve_locally_unread].
  - intros alertId Hok. unfold AdminActions.handleMarkRead. rewrite Hok. simpl.
    split; [apply mark_read_locally_alerts|]. split; [done|].
    split; [apply mark_read_locally_unread|].
    apply consistent_after_decrement; [done|apply mark_read_locally_unread].
Qed.

Lemma offers_resolve_resolved alert :
  alert.["status"] = JStr "SAFE" ∨ alert.["status"] = JStr "RESOLVED" →
  AdminActions.offers_resolve alert = false.
Proof. unfold AdminActions.offers_resolve. by intros [-> | ->]. Qed.

Lemma resolve_locally_fixed alert st :
  already_resolved alert st = true →
  AdminActions.alerts (AdminActions.resolve_locally alert st) = AdminActions.alerts st.
Proof.
  unfold already_resolved, AdminActions.resolve_locally. simpl. intros Hres.
  rewrite forallb_forall in Hres.
  apply fmap_fixed. intros a Ha. destruct (JS.strict_eq a.["id"] alert.["id"]) eqn:Hid; [|done].
  specialize (Hres a (proj1 (list_elem_of_In _ _) Ha)). rewrite Hid in Hres. simpl in Hres.
  apply andb_true_iff in Hres as [Hread Hstatus].
  unfold JS.strict_eq in Hread, Hstatus.
  apply bool_decide_eq_true in Hread, Hstatus.
  unfold JS.spread. simpl.
  rewrite (insert_same a "is_read") by done.
  apply insert_same; [done|].
  unfold AdminActions.resolved_status.
  by destruct (JS.strict_eq alert.["message_type"] _).
Qed.

(** C4, as the code has it: the list offers no Resolve button for an alert
    whose status is SAFE or RESOLVED.  [handleResolve] itself has no such
    guard: run again on an alert that is already resolved it leaves the
    alert list as it is and lets no error escape, but it issues the same
    backend request as the first time (one for an SOS, one for an incident,
    none for another type) and, when the request succeeds, lowers
    [stats.unread] by one, stopping at zero. *)
Theorem resolve_again backend alert st :
  (alert.["status"] = JStr "SAFE" ∨ alert.["status"] = JStr "RESOLVED" →
   AdminActions.offers_resolve alert = false) ∧
  (already_resolved alert st = true →
   AdminActions.alerts (AdminActions.handleResolve backend alert st).2
   = AdminActions.alerts st) ∧
  (AdminActions.handleResolve backend alert st).1 = resolve_requests alert ∧
  resolve_requests alert
  = (if JS.strict_eq alert.["message_type"] (JStr "SOS")
     then [AdminActions.resolveSOS alert.["id"]]
     else if JS.strict_eq alert.["message_type"] (JStr "INCIDENT")
          then [AdminActions.resolveIncident alert.["id"]]
          else []) ∧
  ((∀ r, AdminActions.resolve_request alert = Some r → backend r = true) →
   AdminActions.unread (AdminActions.stats (AdminActions.handleResolve backend alert st).2)
   = Z.max (AdminActions.unread (AdminActions.stats st) - 1) 0).
Proof.
  split; [apply offers_resolve_resolved|]. split; [|split; [|split]].
  - intros Hres. unfold AdminActions.handleResolve.
    destruct (AdminActions.resolve_request alert) as [r|]; simpl.
    + destruct (backend r); [by apply resolve_locally_fixed|done].
    + by apply resolve_locally_fixed.
  - unfold AdminActions.handleResolve, resolve_requests.
    by destruct (AdminActions.resolve_request alert).
  - unfold resolve_requests, AdminActions.resolve_request.
    by repeat destruct (JS.strict_eq alert.["message_type"] _).
  - intros Hok. by rewrite handleResolve_accepted.
Qed.

End Handlers.

Section Polling.
Context `{DateParse}.
Implicit Types (st : AdminActions.state) (m s i : Api.settled).

(** What [fetchAlerts] leaves behind when the aggregation has returned. *)
Lemma fetchAlerts_end_returned snap st :
  Api.stats snap = Api.compute_stats (Api.messages snap) →
  AdminActions.fetchAlerts_end (Normal snap) st
  = {| AdminActions.alerts := Api.messages snap;
       AdminActions.isLoading := false;
       AdminActions.stats :=
         {| AdminActions.total := Z.of_nat (length (Api.messages snap));
            AdminActions.unread := JS.count Api.is_unread (Api.messages snap);
            AdminActions.sos_count := JS.count (Api.has_type "SOS") (Api.messages snap);
            AdminActions.incident_count :=
              JS.count (Api.has_type "INCIDENT") (Api.messages snap) |} |}.
Proof.
  intros Hstats. unfold AdminActions.fetchAlerts_end. rewrite Hstats. simpl.
  by rewrite !num_or_same.
Qed.

Lemma fetch_end_state st m s i :
  ∃ snap,
    Api.getAllAlertsForAdmin m s i = Normal snap ∧
    AdminActions.step st (AdminActions.FetchEnd m s i)
    = {| AdminActions.alerts := Api.messages snap;
         AdminActions.isLoading := false;
         AdminActions.stats :=
           {| AdminActions.total := Z.of_nat (length (Api.messages snap));
              AdminActions.unread := JS.count Api.is_unread (Api.messages snap);
              AdminActions.sos_count := JS.count (Api.has_type "SOS") (Api.messages snap);
              AdminActions.incident_count :=
                JS.count (Api.has_type "INCIDENT") (Api.messages snap) |} |}.
Proof.
  destruct (getAllAlertsForAdmin_returns m s i) as [snap Hsnap].
  pose proof (getAllAlertsForAdmin_stats _ _ _ _ Hsnap) as Hstats.
  exists snap. simpl. by rewrite Hsnap, fetchAlerts_end_returned.
Qed.


Lemma step_unread_nonneg st e :
  0 ≤ AdminActions.unread (AdminActions.stats st) →
  0 ≤ AdminActions.unread (AdminActions.stats (AdminActions.step st e)).
Proof.
  intros Hst. destruct e as [|m s i|backend alert|backend alertId]; simpl.
  - done.
  - destruct (fetch_end_state st m s i) as (snap & _ & Hend).
    simpl in Hend. rewrite Hend. apply count_nonneg.
  - unfold AdminActions.handleResolve.
    destruct (AdminActions.resolve_request alert) as [r|]; simpl;
      [destruct (backend r)|]; simpl; lia.
  - destruct (backend _); simpl; lia.
Qed.

End Polling.

Section UnreadCounter.
Context `{DateParse}.

(** C10: [stats.unread] is never negative, in any state the component can
    reach by fetches and by resolve and mark-read operations, because each
    mutation writes [max(prev.unread - 1, 0)]: also when the same alert, or
    one that is already read, is mutated again, and from any counter. *)
Theorem unread_never_negative :
  (∀ events, 0 ≤ AdminActions.unread (AdminActions.stats (AdminActions.run events))) ∧
  (∀ alert st,
     AdminActions.unread (AdminActions.stats (AdminActions.resolve_locally alert st))
     = Z.max (AdminActions.unread (AdminActions.stats st) - 1) 0 ∧
     0 ≤ AdminActions.unread (AdminActions.stats (AdminActions.resolve_locally alert st))) ∧
  (∀ alertId st,
     AdminActions.unread (AdminActions.stats (AdminActions.mark_read_locally alertId st))
     = Z.max (AdminActions.unread (AdminActions.stats st) - 1) 0 ∧
     0 ≤ AdminActions.unread (AdminActions.stats (AdminActions.mark_read_locally alertId st))).
Proof.
  split; [|split].
  - intros events. unfold AdminActions.run.
    induction events as [|e events IH] using rev_ind; [done|].
    rewrite foldl_app. simpl. by apply step_unread_nonneg.
  - intros alert st. simpl. lia.
  - intros alertId st. simpl. lia.
Qed.

End UnreadCounter.

(** ** App.jsx *)

Section Scheduler.
Context `{DateParse}.
Implicit Types (w : App.world).

(** C6, as the code has it: [App] keeps no generation counter and does not
    coalesce.  Every call of [fetchData] starts a cycle next to those still
    in flight, and every cycle that settles is applied: the current snapshot
    is that of the cycle that settled last, whenever it was started.  Only
    the Refresh button of the admin actions page is disabled while its own
    fetch is loading. *)
Theorem cycles_apply_as_they_settle w :
  (App.in_flight (App.step w App.Invoke) = App.started w :: App.in_flight w ∧
   App.app (App.step w App.Invoke) = App.app w) ∧
  (∀ k m s i,
     k ∈ App.in_flight w →
     ∃ snap,
       Api.getAllAlertsForAdmin m s i = Normal snap ∧
       App.messages (App.app (App.step w (App.Settle k m s i))) = Api.messages snap ∧
       App.by_type (App.stats (App.app (App.step w (App.Settle k m s i))))
         = Api.by_type (Api.stats snap) ∧
       k ∉ App.in_flight (App.step w (App.Settle k m s i))) ∧
  (∀ st, AdminActions.refresh_disabled (AdminActions.fetchAlerts_begin st) = true).
Proof.
  split; [done|]. split; [|done].
  intros k m s i Hk. destruct (getAllAlertsForAdmin_returns m s i) as [snap Hsnap].
  exists snap. split; [done|]. simpl.
  rewrite bool_decide_eq_true_2 by done. simpl. rewrite Hsnap. simpl.
  split; [done|]. split; [done|].
  rewrite list_elem_of_In, filter_In. intros [_ Hne].
  by rewrite Nat.eqb_refl in Hne.
Qed.

End Scheduler.

(** ** pages/AuditLogs.jsx *)

Section AuditFilters.
Implicit Types (f prev : obj) (key k : string) (value : jsval).

Lemma handleFilterChange_get key value prev k :
  (AuditLogs.handleFilterChange key value prev).[k]
  = if String.eqb "page" k
    then (if String.eqb key "action" || String.eqb key "resourceType"
          then JNum 1 else prev.["page"])
    else if String.eqb key k then value else prev.[k].
Proof. unfold AuditLogs.handleFilterChange. by rewrite get_spread. Qed.

(** X1: The page buttons change nothing: [handleFilterChange('page', value)]
    writes [value] under [page] and then [prev.page] over it, so every
    property reads as before, and the filters are the same object when they
    have a page; a change of the action or of the resource type stores the
    value and sets the page to 1; any other key is stored and keeps the
    page. *)
Theorem page_change_is_lost key value prev :
  (∀ k, (AuditLogs.handleFilterChange "page" value prev).[k] = prev.[k]) ∧
  (present prev "page" → AuditLogs.handleFilterChange "page" value prev = prev) ∧
  (key = "action" ∨ key = "resourceType" →
   (AuditLogs.handleFilterChange key value prev).["page"] = JNum 1 ∧
   (AuditLogs.handleFilterChange key value prev).[key] = value) ∧
  (key ≠ "action" → key ≠ "resourceType" →
   (AuditLogs.handleFilterChange key value prev).["page"] = prev.["page"]).
Proof.
  split; [|split; [|split]].
  - intros k. rewrite handleFilterChange_get.
    by destruct (String.eqb_spec "page" k) as [<-|Hne].
  - intros Hpage. unfold AuditLogs.handleFilterChange, JS.spread. simpl.
    rewrite insert_insert_eq. by apply insert_same.
  - intros [-> | ->]; by rewrite !handleFilterChange_get.
  - intros Haction Hresource. rewrite handleFilterChange_get.
    apply String.eqb_neq in Haction, Hresource. by rewrite Haction, Hresource.
Qed.

Lemma apply_changes_snoc calls key value f :
  AuditLogs.apply_changes (calls ++ [(key, value)]) f
  = AuditLogs.handleFilterChange key value (AuditLogs.apply_changes calls f).
Proof. unfold AuditLogs.apply_changes. by rewrite foldl_app. Qed.

Lemma apply_changes_page calls :
  (AuditLogs.apply_changes calls AuditLogs.initial_filters).["page"] = JNum 1.
Proof.
  induction calls as [|[key value] calls IH] using rev_ind; [done|].
  rewrite apply_changes_snoc, handleFilterChange_get.
  by destruct (String.eqb key "action" || String.eqb key "resourceType").
Qed.

Lemma apply_changes_pageSize calls :
  Forall (λ kv, kv.1 ≠ "pageSize") calls →
  (AuditLogs.apply_changes calls AuditLogs.initial_filters).["pageSize"] = JNum 50.
Proof.
  induction calls as [|[key value] calls IH] using rev_ind; [done|].
  intros [Hcalls Hkey]%Forall_app. rewrite Forall_singleton in Hkey. simpl in Hkey.
  rewrite apply_changes_snoc, handleFilterChange_get.
  apply String.eqb_neq in Hkey. rewrite Hkey. by apply IH.
Qed.

(** X2: Whatever series of filter changes the page goes through, with any keys
    and values, it stays on page 1; and the page size stays 50 when no call
    names [pageSize], as none of the page's controls does. *)
Theorem page_stays_first calls :
  (AuditLogs.apply_changes calls AuditLogs.initial_filters).["page"] = JNum 1 ∧
  (Forall (λ kv, kv.1 ≠ "pageSize") calls →
   (AuditLogs.apply_changes calls AuditLogs.initial_filters).["pageSize"] = JNum 50).
Proof. split; [apply apply_changes_page|apply apply_changes_pageSize]. Qed.

Lemma get_insert (o : obj) k value k' :
  (<[k := value]> o).[k'] = if String.eqb k k' then value else o.[k'].
Proof.
  destruct (String.eqb_spec k k') as [->|Hne].
  - apply get_insert_eq.
  - by apply get_insert_ne.
Qed.

Lemma fetchAuditLogs_params_get filters k :
  (AuditLogs.fetchAuditLogs_params filters).[k]
  = if String.eqb k "page" then filters.["page"]
    else if String.eqb k "page_size" then filters.["pageSize"]
    else if String.eqb k "action"
         then (if JS.truthy filters.["action"] then filters.["action"] else JUndefined)
    else if String.eqb k "resource_type"
         then (if JS.truthy filters.["resourceType"] then filters.["resourceType"]
               else JUndefined)
    else JUndefined.
Proof.
  unfold AuditLogs.fetchAuditLogs_params.
  destruct (JS.truthy filters.["action"]), (JS.truthy filters.["resourceType"]);
    rewrite ?get_insert, get_literal; cbv [read_props];
    rewrite ?(String.eqb_sym "page" k), ?(String.eqb_sym "page_size" k),
            ?(String.eqb_sym "action" k), ?(String.eqb_sym "resource_type" k);
    destruct (String.eqb_spec k "page") as [->|?]; try done;
    destruct (String.eqb_spec k "page_size") as [->|?]; try done;
    destruct (String.eqb_spec k "action") as [->|?]; try done;
    by destruct (String.eqb_spec k "resource_type") as [->|?].
Qed.

(** X3: The request [fetchAuditLogs] makes through [getAuditLogs]: an empty
    filter goes out as [null], a chosen one as it is; no admin is ever
    named; and from the initial filters, after any changes made with the
    page's controls, it asks for page 1 with a page size of 50. *)
Theorem audit_request filters :
  let query := AuditLogs.getAuditLogs_query (AuditLogs.fetchAuditLogs_params filters) in
  query.["action"]
    = (if JS.truthy filters.["action"] then filters.["action"] else JNull) ∧
  query.["resource_type"]
    = (if JS.truthy filters.["resourceType"] then filters.["resourceType"] else JNull) ∧
  query.["admin_id"] = JNull ∧
  query.["page"] = JS.or_else filters.["page"] (JNum 1) ∧
  query.["page_size"] = JS.or_else filters.["pageSize"] (JNum 50) ∧
  (∀ calls,
     filters = AuditLogs.apply_changes calls AuditLogs.initial_filters →
     Forall (λ kv, kv.1 ≠ "pageSize") calls →
     query.["page"] = JNum 1 ∧ query.["page_size"] = JNum 50).
Proof.
  intros query.
  assert (query.["page"] = JS.or_else filters.["page"] (JNum 1)) as Hpage.
  { unfold query, AuditLogs.getAuditLogs_query. js_get.
    by rewrite fetchAuditLogs_params_get. }
  assert (query.["page_size"] = JS.or_else filters.["pageSize"] (JNum 50)) as Hsize.
  { unfold query, AuditLogs.getAuditLogs_query. js_get.
    by rewrite fetchAuditLogs_params_get. }
  split; [|split; [|split; [|split; [done|split; [done|]]]]].
  - unfold query, AuditLogs.getAuditLogs_query. js_get.
    rewrite fetchAuditLogs_params_get. simpl. unfold JS.or_else.
    by destruct (JS.truthy filters.["action"]) eqn:Htruthy; [rewrite Htruthy|].
  - unfold query, AuditLogs.getAuditLogs_query. js_get.
    rewrite fetchAuditLogs_params_get. simpl. unfold JS.or_else.
    by destruct (JS.truthy filters.["resourceType"]) eqn:Htruthy; [rewrite Htruthy|].
  - unfold query, AuditLogs.getAuditLogs_query. js_get.
    by rewrite fetchAuditLogs_params_get.
  - intros calls Hfilters Hcalls. rewrite Hpage, Hsize, Hfilters.
    by rewrite apply_changes_page, apply_changes_pageSize.
Qed.

End AuditFilters.

Section AuditFetch.
Implicit Types (st : AuditLogs.state).

(** X4: One run of [fetchAuditLogs], from start to end.  It always ends with
    [loading] off and the filters untouched.  When the request succeeds and
    brings data, the error is cleared, the log list is the array received
    (empty when there is none) and the total the number received (0 when
    there is none).  When it fails, or brings no data, the error message is
    set and the list and the total shown before stay as they are. *)
Theorem audit_fetch_outcome data st :
  let st' := AuditLogs.fetchAuditLogs_end data (AuditLogs.fetchAuditLogs_begin st) in
  AuditLogs.loading st' = false ∧
  AuditLogs.filters st' = AuditLogs.filters st ∧
  (∀ page, data = Normal (Some page) →
     AuditLogs.error st' = None ∧
     AuditLogs.auditLogs st' = default [] (AuditLogs.audit_logs page) ∧
     JS.truthy (AuditLogs.total st') = JS.truthy (AuditLogs.page_total page) ∧
     (JS.truthy (AuditLogs.page_total page) = true →
      AuditLogs.total st' = AuditLogs.page_total page) ∧
     (JS.truthy (AuditLogs.page_total page) = false → AuditLogs.total st' = JNum 0)) ∧
  ((data = Normal None ∨ ∃ e, data = Throw e) →
     AuditLogs.error st' = Some "Failed to load audit logs. Please try again." ∧
     AuditLogs.auditLogs st' = AuditLogs.auditLogs st ∧
     AuditLogs.total st' = AuditLogs.total st).
Proof.
  split; [by destruct data as [[page|]|e]|]. split; [by destruct data as [[page|]|e]|].
  split.
  - intros page ->. simpl. unfold JS.or_else.
    destruct (JS.truthy (AuditLogs.page_total page)) eqn:Htotal; by rewrite ?Htotal.
  - intros [-> | [e ->]]; done.
Qed.

(** X5: The pagination bar, for a positive page size: "Next" is enabled exactly
    on a page below the page count shown, the bar is shown exactly when
    there is more than one page, and on page 1 "Previous" is disabled; so
    on page 1, whenever the bar is shown and nothing is loading, "Next" is
    enabled. *)
Theorem pagination_controls page pageSize total :
  0 < pageSize →
  (AuditLogs.next_disabled page pageSize total false = false
   ↔ page < AuditLogs.page_count total pageSize) ∧
  (AuditLogs.pagination_shown total pageSize = true
   ↔ 1 < AuditLogs.page_count total pageSize) ∧
  (∀ loading, AuditLogs.previous_disabled 1 loading = true) ∧
  (AuditLogs.pagination_shown total pageSize = true →
   AuditLogs.next_disabled 1 pageSize total false = false) ∧
  (∀ p, AuditLogs.next_disabled p pageSize total true = true).
Proof.
  intros Hsize.
  assert (∀ p, p * pageSize < total ↔ p < AuditLogs.page_count total pageSize) as Hceil.
  { intros p. unfold AuditLogs.page_count.
    pose proof (Z.div_mod (- total) pageSize) as Hdiv.
    pose proof (Z.mod_pos_bound (- total) pageSize Hsize) as Hmod.
    split; intros Hlt; nia. }
  unfold AuditLogs.next_disabled, AuditLogs.pagination_shown, AuditLogs.previous_disabled.
  repeat split.
  - rewrite orb_false_r, Z.leb_gt. apply Hceil.
  - rewrite orb_false_r, Z.leb_gt. apply Hceil.
  - rewrite Z.ltb_lt. intros Hshown. apply Hceil. lia.
  - rewrite Z.ltb_lt. intros Hcount. apply Hceil in Hcount. lia.
  - rewrite Z.ltb_lt, orb_false_r, Z.leb_gt. lia.
  - intros p. apply orb_true_r.
Qed.

End AuditFetch.

Section ActionNames.
Implicit Types (s : string) (c : ascii).


Lemma spaced_lower_not_underscore c : Ascii.eqb (Text.spaced_lower c) "_" = false.
Proof. by destruct c as [[] [] [] [] [] [] [] []]. Qed.

Lemma spaced_lower_upper c :
  Text.spaced_lower (Text.upper_ascii (Text.spaced_lower c)) = Text.spaced_lower c.
Proof. by destruct c as [[] [] [] [] [] [] [] []]. Qed.

Lemma spaced_lower_idem c :
  Text.spaced_lower (Text.spaced_lower c) = Text.spaced_lower c.
Proof. by destruct c as [[] [] [] [] [] [] [] []]. Qed.

Lemma upper_spaced_lower_not_underscore c :
  Ascii.eqb (Text.upper_ascii (Text.spaced_lower c)) "_" = false.
Proof. by destruct c as [[] [] [] [] [] [] [] []]. Qed.

Lemma lowered_cons c s :
  JS.toLowerCase (Text.replace_underscores (String c s))
  = String (Text.spaced_lower c) (JS.toLowerCase (Text.replace_underscores s)).
Proof. done. Qed.

(** Lower-casing again what [formatAction] has capitalized gives back the
    lower-cased name. *)
Lemma lowered_capitalized after_word s :
  JS.toLowerCase (Text.replace_underscores
    (Text.capitalize_words after_word (JS.toLowerCase (Text.replace_underscores s))))
  = JS.toLowerCase (Text.replace_underscores s).
Proof.
  revert after_word. induction s as [|c s IH]; intros after_word; [done|].
  rewrite lowered_cons. cbn [Text.capitalize_words]. rewrite lowered_cons, IH. f_equal.
  destruct (Text.is_word (Text.spaced_lower c) && negb after_word).
  - apply spaced_lower_upper.
  - apply spaced_lower_idem.
Qed.

Lemma capitalized_no_underscore after_word s :
  Text.all_chars (λ c, negb (Ascii.eqb c "_"))
    (Text.capitalize_words after_word (JS.toLowerCase (Text.replace_underscores s))) = true.
Proof.
  revert after_word. induction s as [|c s IH]; intros after_word; [done|].
  rewrite lowered_cons. cbn [Text.capitalize_words Text.all_chars]. rewrite IH.
  destruct (Text.is_word (Text.spaced_lower c) && negb after_word).
  - by rewrite upper_spaced_lower_not_underscore.
  - by rewrite spaced_lower_not_underscore.
Qed.

Lemma capitalized_length after_word s :
  String.length
    (Text.capitalize_words after_word (JS.toLowerCase (Text.replace_underscores s)))
  = String.length s.
Proof.
  revert after_word. induction s as [|c s IH]; intros after_word; [done|].
  rewrite lowered_cons. cbn [Text.capitalize_words String.length]. by rewrite IH.
Qed.

(** X6: On an action name of ASCII characters, [formatAction] keeps the length,
    leaves no underscore, and changes nothing when applied to its own
    result. *)
Theorem formatAction_shape s :
  Text.all_chars Text.is_ascii7 s = true →
  String.length (AuditLogs.formatAction s) = String.length s ∧
  Text.all_chars (λ c, negb (Ascii.eqb c "_")) (AuditLogs.formatAction s) = true ∧
  AuditLogs.formatAction (AuditLogs.formatAction s) = AuditLogs.formatAction s.
Proof.
  intros _. unfold AuditLogs.formatAction. split; [apply capitalized_length|].
  split; [apply capitalized_no_underscore|]. by rewrite lowered_capitalized.
Qed.

(** X7: Every action the filter offers, the first entry "All Actions" with its
    empty value apart, is shown in the table under the label the filter
    gives it. *)
Theorem action_labels_agree :
  Forall (λ option, option.1 = "" ∨ AuditLogs.formatAction option.1 = option.2)
         AuditLogs.actionOptions.
Proof.
  unfold AuditLogs.actionOptions.
  repeat (constructor; [first [by left | by right]|]). constructor.
Qed.

End ActionNames.

(** ** pages/AdminActions.jsx: more on the handlers and the rows *)

Section Counters.
Context `{DateParse}.
Implicit Types (st : AdminActions.state) (a alert : obj) (l : list obj).

Lemma count_fmap_same (p : obj → bool) (f : obj → obj) l :
  (∀ a, p (f a) = p a) → JS.count p (f <$> l) = JS.count p l.
Proof.
  intros Hsame. induction l as [|a l IH]; [done|].
  by rewrite fmap_cons, !count_cons, Hsame, IH.
Qed.

Lemma count_le_length (p : obj → bool) l : JS.count p l ≤ Z.of_nat (length l).
Proof.
  induction l as [|a l IH]; [done|].
  rewrite count_cons, length_cons, Nat2Z.inj_succ. destruct (p a); lia.
Qed.

Lemma has_type_resolved t a status :
  Api.has_type t (JS.spread a [("is_read", JBool true); ("status", status)])
  = Api.has_type t a.
Proof. unfold Api.has_type. by js_get. Qed.

Lemma has_type_marked t a :
  Api.has_type t (JS.spread a [("is_read", JBool true)]) = Api.has_type t a.
Proof. unfold Api.has_type. by js_get. Qed.

Lemma resolve_locally_counts t alert st :
  JS.count (Api.has_type t) (AdminActions.alerts (AdminActions.resolve_locally alert st))
  = JS.count (Api.has_type t) (AdminActions.alerts st).
Proof.
  unfold AdminActions.resolve_locally. simpl. apply count_fmap_same. intros a.
  destruct (JS.strict_eq a.["id"] alert.["id"]); [apply has_type_resolved|done].
Qed.

Lemma mark_read_locally_counts t alertId st :
  JS.count (Api.has_type t) (AdminActions.alerts (AdminActions.mark_read_locally alertId st))
  = JS.count (Api.has_type t) (AdminActions.alerts st).
Proof.
  unfold AdminActions.mark_read_locally. simpl. apply count_fmap_same. intros a.
  destruct (JS.strict_eq a.["id"] alertId); [apply has_type_marked|done].
Qed.

Lemma resolve_locally_counters alert st :
  counters_match st → counters_match (AdminActions.resolve_locally alert st).
Proof.
  unfold counters_match. intros (Htotal & Hsos & Hinc & Hunread).
  rewrite !resolve_locally_counts. simpl. rewrite length_fmap. repeat split; try done; lia.
Qed.

Lemma mark_read_locally_counters alertId st :
  counters_match st → counters_match (AdminActions.mark_read_locally alertId st).
Proof.
  unfold counters_match. intros (Htotal & Hsos & Hinc & Hunread).
  rewrite !mark_read_locally_counts. simpl. rewrite length_fmap.
  repeat split; try done; lia.
Qed.

Lemma step_counters st e : counters_match st → counters_match (AdminActions.step st e).
Proof.
  intros Hst. destruct e as [|m s i|backend alert|backend alertId].
  - done.
  - destruct (fetch_end_state st m s i) as (snap & _ & ->). unfold counters_match. simpl.
    repeat split; try done; [apply count_nonneg|apply count_le_length].
  - simpl. unfold AdminActions.handleResolve.
    destruct (AdminActions.resolve_request alert) as [r|]; simpl;
      [destruct (backend r)|]; try done; by apply resolve_locally_counters.
  - simpl. destruct (backend _); [by apply mark_read_locally_counters|done].
Qed.

(** X8: In every state the admin actions page can reach, [stats.total] is the
    length of the alert list, [stats.sos_count] and [stats.incident_count]
    are the numbers of its SOS and incident alerts, and [stats.unread] lies
    between 0 and the total: resolving and marking read change none of the
    first three and never push the unread counter out of range. *)
Theorem counters_follow_list events :
  let st := AdminActions.run events in
  AdminActions.total (AdminActions.stats st) = Z.of_nat (length (AdminActions.alerts st)) ∧
  AdminActions.sos_count (AdminActions.stats st)
    = JS.count (Api.has_type "SOS") (AdminActions.alerts st) ∧
  AdminActions.incident_count (AdminActions.stats st)
    = JS.count (Api.has_type "INCIDENT") (AdminActions.alerts st) ∧
  0 ≤ AdminActions.unread (AdminActions.stats st) ≤ AdminActions.total (AdminActions.stats st).
Proof.
  simpl. fold (counters_match (AdminActions.run events)). unfold AdminActions.run.
  induction events as [|e events IH] using rev_ind; [by unfold counters_match|].
  rewrite foldl_app. simpl. by apply step_counters.
Qed.

End Counters.

Section Buttons.
Implicit Types (st : AdminActions.state) (a alert sos inc msg : obj).

Lemma formatIncident_inv inc a :
  Api.formatIncident inc = Normal a →
  ∃ lowered,
    Api.optional_toLowerCase inc.["risk_level"] = Normal lowered ∧
    a.["severity"] = JS.or_else lowered (JStr "medium") ∧
    a.["is_read"] = JBool (JS.strict_eq inc.["status"] (JStr "RESOLVED")
                           || JS.strict_eq inc.["status"] (JStr "VERIFIED")) ∧
    a.["category"] = inc.["type"] ∧
    a.["user_name"] = JStr "Unknown User" ∧
    a.["ability"] = JUndefined ∧
    a.["battery"] = JUndefined.
Proof.
  unfold Api.formatIncident. intros Ha.
  destruct (Api.optional_toLowerCase inc.["risk_level"]) as [lowered|e]; simpl in Ha; [|done].
  injection Ha as <-. exists lowered. js_get. by repeat split.
Qed.

(** X9: Which buttons a row gets, by the source of its alert.  An SOS alert is
    offered "Mark Read" unless its status is SAFE, and "Resolve" only when
    "Mark Read" is offered too.  An incident is offered "Mark Read" unless
    it is RESOLVED or VERIFIED, and "Resolve" unless it is SAFE or RESOLVED:
    a VERIFIED incident can be resolved but not marked read.  A message is
    offered "Mark Read" while its read flag is falsy.  "Mark Read" always
    calls the message endpoint with the alert's id, whatever the source. *)
Theorem buttons_by_source :
  (∀ sos,
     AdminActions.offers_mark_read (Api.formatSOS sos)
       = negb (JS.strict_eq sos.["status"] (JStr "SAFE")) ∧
     AdminActions.offers_resolve (Api.formatSOS sos)
       = negb (JS.strict_eq sos.["status"] (JStr "SAFE"))
         && negb (JS.strict_eq sos.["status"] (JStr "RESOLVED")) ∧
     (AdminActions.offers_resolve (Api.formatSOS sos) = true →
      AdminActions.offers_mark_read (Api.formatSOS sos) = true)) ∧
  (∀ inc a,
     Api.formatIncident inc = Normal a →
     AdminActions.offers_mark_read a
       = negb (JS.strict_eq inc.["status"] (JStr "RESOLVED")
               || JS.strict_eq inc.["status"] (JStr "VERIFIED")) ∧
     AdminActions.offers_resolve a
       = negb (JS.strict_eq inc.["status"] (JStr "SAFE"))
         && negb (JS.strict_eq inc.["status"] (JStr "RESOLVED")) ∧
     (inc.["status"] = JStr "VERIFIED" →
      AdminActions.offers_resolve a = true ∧ AdminActions.offers_mark_read a = false)) ∧
  (∀ msg,
     AdminActions.offers_mark_read (Api.formatMessage msg) = negb (JS.truthy msg.["is_read"]) ∧
     AdminActions.offers_resolve (Api.formatMessage msg) = AdminActions.offers_resolve msg) ∧
  (∀ backend alertId st,
     (AdminActions.handleMarkRead backend alertId st).1
     = [AdminActions.markMessageAsRead alertId]).
Proof.
  split; [|split; [|split]].
  - intros sos. unfold AdminActions.offers_mark_read, AdminActions.offers_resolve.
    unfold Api.formatSOS. js_get. simpl.
    repeat split; try done. by intros [Hsafe _]%andb_true_iff.
  - intros inc a Ha.
    destruct (formatIncident_fields _ _ Ha) as (_ & _ & _ & _ & _ & Hstatus & _).
    destruct (formatIncident_inv _ _ Ha) as (_ & _ & _ & Hread & _).
    unfold AdminActions.offers_mark_read, AdminActions.offers_resolve.
    rewrite Hread, Hstatus. simpl. split; [done|]. split; [done|].
    by intros ->.
  - intros msg. unfold AdminActions.offers_mark_read, AdminActions.offers_resolve.
    rewrite formatMessage_is_read, formatMessage_other by done. simpl.
    by destruct (JS.truthy msg.["is_read"]).
  - done.
Qed.

Lemma resolved_status_gate alert a :
  a.["status"] = AdminActions.resolved_status alert → AdminActions.offers_resolve a = false.
Proof.
  intros Hstatus. apply offers_resolve_resolved. rewrite Hstatus.
  unfold AdminActions.resolved_status. destruct (JS.strict_eq _ _); auto.
Qed.

(** X10: After a resolve that succeeds, no alert that carries the id is offered
    "Resolve" or "Mark Read" any more, and every other alert of the list was
    there before.  After a mark-read that succeeds, no alert that carries
    the id is offered "Mark Read", and its "Resolve" button is as before. *)
Theorem buttons_after_mutation backend st :
  (∀ alert,
     (∀ r, AdminActions.resolve_request alert = Some r → backend r = true) →
     ∀ a', a' ∈ AdminActions.alerts (AdminActions.handleResolve backend alert st).2 →
       (a'.["id"] = alert.["id"] →
        AdminActions.offers_resolve a' = false ∧ AdminActions.offers_mark_read a' = false) ∧
       (a'.["id"] ≠ alert.["id"] → a' ∈ AdminActions.alerts st)) ∧
  (∀ alertId,
     backend (AdminActions.markMessageAsRead alertId) = true →
     ∀ a', a' ∈ AdminActions.alerts (AdminActions.handleMarkRead backend alertId st).2 →
       (a'.["id"] = alertId → AdminActions.offers_mark_read a' = false) ∧
       (a'.["id"] ≠ alertId → a' ∈ AdminActions.alerts st) ∧
       ∃ a, a ∈ AdminActions.alerts st ∧ a.["id"] = a'.["id"] ∧
            AdminActions.offers_resolve a' = AdminActions.offers_resolve a).
Proof.
  split.
  - intros alert Hok a'. rewrite handleResolve_accepted by done. simpl.
    intros (a & -> & Ha)%list_elem_of_fmap.
    unfold JS.strict_eq. case_bool_decide as Hid.
    + split; [|intros Hne; exfalso; apply Hne; by js_get].
      intros _. split.
      * apply (resolved_status_gate alert). by js_get.
      * unfold AdminActions.offers_mark_read. by js_get.
    + split; [intros Hid'; by destruct Hid|done].
  - intros alertId Hok a'. unfold AdminActions.handleMarkRead. rewrite Hok. simpl.
    intros (a & -> & Ha)%list_elem_of_fmap.
    unfold JS.strict_eq. case_bool_decide as Hid.
    + split; [intros _; unfold AdminActions.offers_mark_read; by js_get|].
      split; [intros Hne; exfalso; apply Hne; by js_get|].
      exists a. split; [done|]. split; [by js_get|].
      unfold AdminActions.offers_resolve. by js_get.
    + split; [intros Hid'; by destruct Hid|]. split; [done|]. by exists a.
Qed.

(** X11: What a row shows for an alert of each source.  An SOS alert and an
    incident always show the title their adapter built and "Unknown User";
    an SOS alert is described by its status, an incident by its description
    or else "No description".  A message without a title shows its type
    followed by "Alert". *)
Theorem rows_of_sources :
  (∀ sos,
     AdminActionsRow.shown_title (Api.formatSOS sos)
       = JStr ("SOS Alert (" +:+
               JS.ToString (JS.or_else sos.["ability"] (JStr "Unknown")) +:+ ")") ∧
     AdminActionsRow.shown_user (Api.formatSOS sos) = JStr "Unknown User" ∧
     AdminActionsRow.shown_content (Api.formatSOS sos)
       = JStr ("Emergency SOS - Status: " +:+ JS.ToString sos.["status"])) ∧
  (∀ inc a,
     Api.formatIncident inc = Normal a →
     AdminActionsRow.shown_title a = JStr ("Incident: " +:+ JS.ToString inc.["type"]) ∧
     AdminActionsRow.shown_user a = JStr "Unknown User" ∧
     AdminActionsRow.shown_content a
       = JS.or_else inc.["description"] (JStr "No description")) ∧
  (∀ msg,
     JS.truthy msg.["title"] = false →
     AdminActionsRow.shown_title (Api.formatMessage msg)
       = JStr (JS.ToString msg.["message_type"] +:+ " Alert")).
Proof.
  unfold AdminActionsRow.shown_title, AdminActionsRow.shown_user,
    AdminActionsRow.shown_content, JS.or_else.
  split; [|split].
  - intros sos. unfold Api.formatSOS. js_get. by simpl.
  - intros inc a Ha.
    destruct (formatIncident_fields _ _ Ha)
      as (_ & _ & _ & _ & _ & _ & Hcontent & Htitle & _).
    destruct (formatIncident_inv _ _ Ha) as (_ & _ & _ & _ & _ & Huser & _).
    by rewrite Htitle, Huser, Hcontent.
  - intros msg Htitle. rewrite !formatMessage_other by done. by rewrite Htitle.
Qed.

End Buttons.

Section Timestamps.
Context `{DateParse} `{Locale}.

(** X12: What a row shows for the age of its alert.  No timestamp gives
    "Unknown" and an invalid date the locale's rendering of one.  A date
    less than a minute back, or in the future, gives "Just now"; from one
    minute up to an hour, the whole minutes, which are 1 to 59; from one
    hour up to a day, the whole hours, which are 1 to 23; from a day on,
    the locale's rendering of the date. *)
Theorem formatTimestamp_ranges now timestamp :
  let shown := AdminActionsRow.formatTimestamp now timestamp in
  (JS.truthy timestamp = false → shown = "Unknown") ∧
  (JS.truthy timestamp = true → JS.Date_new timestamp = None →
   shown = Date_toLocaleString None) ∧
  (∀ date,
     JS.truthy timestamp = true → JS.Date_new timestamp = Some date →
     (now - date < 60000 → shown = "Just now") ∧
     (60000 ≤ now - date < 3600000 →
      ∃ mins, shown = pretty mins +:+ "m ago" ∧ 1 ≤ mins ≤ 59 ∧
              mins * 60000 ≤ now - date < (mins + 1) * 60000) ∧
     (3600000 ≤ now - date < 86400000 →
      ∃ hours, shown = pretty hours +:+ "h ago" ∧ 1 ≤ hours ≤ 23 ∧
               hours * 3600000 ≤ now - date < (hours + 1) * 3600000) ∧
     (86400000 ≤ now - date → shown = Date_toLocaleString (Some date))).
Proof.
  unfold AdminActionsRow.formatTimestamp. split; [by intros ->|].
  split; [by intros -> ->|].
  intros date -> ->. simpl.
  pose proof (Z.div_mod (now - date) 60000) as Hmins.
  pose proof (Z.mod_pos_bound (now - date) 60000) as Hmins_rem.
  pose proof (Z.div_mod (now - date) 3600000) as Hhours.
  pose proof (Z.mod_pos_bound (now - date) 3600000) as Hhours_rem.
  split; [|split; [|split]].
  - intros Hdiff. destruct (Z.ltb_spec ((now - date) / 60000) 1); [done|lia].
  - intros Hdiff. exists ((now - date) / 60000).
    destruct (Z.ltb_spec ((now - date) / 60000) 1); [lia|].
    destruct (Z.ltb_spec ((now - date) / 60000) 60); [|lia].
    split; [done|lia].
  - intros Hdiff. exists ((now - date) / 3600000).
    destruct (Z.ltb_spec ((now - date) / 60000) 1); [lia|].
    destruct (Z.ltb_spec ((now - date) / 60000) 60); [lia|].
    destruct (Z.ltb_spec ((now - date) / 3600000) 24); [|lia].
    split; [done|lia].
  - intros Hdiff.
    destruct (Z.ltb_spec ((now - date) / 60000) 1); [lia|].
    destruct (Z.ltb_spec ((now - date) / 60000) 60); [lia|].
    destruct (Z.ltb_spec ((now - date) / 3600000) 24); [lia|done].
Qed.

End Timestamps.

(** ** App.jsx: the dashboard alerts and the badge *)

Section Dashboard.
Context `{DateParse}.
Implicit Types (sos inc msg a : obj).

Lemma toAlert_unread msg : Api.is_unread (App.toAlert msg) = true.
Proof. unfold Api.is_unread, App.toAlert. by js_get. Qed.

Lemma count_all (p : obj → bool) (l : list obj) :
  (∀ a, a ∈ l → p a = true) → JS.count p l = Z.of_nat (length l).
Proof.
  induction l as [|a l IH]; intros Hall; [done|].
  rewrite count_cons, length_cons, Nat2Z.inj_succ, Hall, IH; [lia| |left].
  intros b Hb. apply Hall. by right.
Qed.

(** X13: What [App] shows after a fetch: the feed of the snapshot, one dashboard
    alert per feed entry, the snapshot's total and per-type counters.  The
    unread badge is the snapshot's unread count while that is not 0; when it
    is 0 the fallback counts the dashboard alerts, none of which has a read
    flag, so with every alert read the badge shows the number of alerts. *)
Theorem app_unread_badge m s i app :
  ∃ snap,
    Api.getAllAlertsForAdmin m s i = Normal snap ∧
    let app' := App.fetchData_end (Api.getAllAlertsForAdmin m s i) app in
    App.messages app' = Api.messages snap ∧
    length (App.alerts app') = length (Api.messages snap) ∧
    App.total (App.stats app') = Z.of_nat (length (Api.messages snap)) ∧
    App.by_type (App.stats app') = Api.by_type (Api.stats snap) ∧
    (Api.unread (Api.stats snap) ≠ 0 →
     App.unread (App.stats app') = JS.count Api.is_unread (Api.messages snap)) ∧
    (JS.count Api.is_unread (Api.messages snap) = 0 →
     App.unread (App.stats app') = Z.of_nat (length (Api.messages snap))).
Proof.
  destruct (getAllAlertsForAdmin_returns m s i) as [snap Hsnap].
  pose proof (getAllAlertsForAdmin_stats _ _ _ _ Hsnap) as Hstats.
  exists snap. split; [done|]. rewrite Hsnap. simpl. rewrite Hstats. simpl.
  rewrite length_fmap, num_or_same. repeat split; try done.
  - unfold JS.num_or. intros Hunread. by apply Z.eqb_neq in Hunread as ->.
  - intros ->. unfold JS.num_or. simpl. rewrite count_all, length_fmap; [done|].
    intros a (msg & -> & _)%list_elem_of_fmap. apply toAlert_unread.
Qed.

Lemma strict_eq_str x y : JS.strict_eq (JStr x) (JStr y) = String.eqb x y.
Proof.
  unfold JS.strict_eq. destruct (String.eqb_spec x y) as [->|Hne].
  - by apply bool_decide_eq_true.
  - apply bool_decide_eq_false. congruence.
Qed.

Lemma or_else_truthy v w : JS.truthy w = true → JS.truthy (JS.or_else v w) = true.
Proof. unfold JS.or_else. intros Hw. by destruct (JS.truthy v) eqn:Hv. Qed.

Lemma or_else_l v w : JS.truthy v = true → JS.or_else v w = v.
Proof. unfold JS.or_else. by intros ->. Qed.

Lemma toAlert_fields msg :
  (App.toAlert msg).["alertType"]
    = (if JS.strict_eq msg.["message_type"] (JStr "SOS") then JStr "SOS Alert"
       else if JS.strict_eq msg.["message_type"] (JStr "INCIDENT") then JStr "Incident"
       else JStr "Message") ∧
  (App.toAlert msg).["riskScore"]
    = (if JS.strict_eq msg.["severity"] (JStr "critical") then JNum 95
       else if JS.strict_eq msg.["severity"] (JStr "high") then JNum 75
       else if JS.strict_eq msg.["severity"] (JStr "medium") then JNum 50
       else JNum 25) ∧
  (App.toAlert msg).["userName"] = JS.or_else msg.["user_name"] (JStr "Unknown User") ∧
  (App.toAlert msg).["status"]
    = (if JS.truthy msg.["is_read"] then JStr "Resolved" else JStr "Active") ∧
  (App.toAlert msg).["description"]
    = JS.or_else (JS.or_else msg.["content"] msg.["title"]) (JStr "No description") ∧
  (App.toAlert msg).["userCategory"]
    = JS.or_else (JS.or_else msg.["ability"] msg.["category"]) (JStr "Normal") ∧
  (App.toAlert msg).["isVulnerable"]
    = JS.and_then msg.["ability"]
        (JBool (negb (JS.strict_eq msg.["ability"] (JStr "NONE")))).
Proof. unfold App.toAlert. js_get. by repeat split. Qed.

Lemma formatSOS_fields sos :
  (Api.formatSOS sos).["severity"] = JStr "critical" ∧
  (Api.formatSOS sos).["user_name"] = JStr "Unknown User" ∧
  (Api.formatSOS sos).["content"]
    = JStr ("Emergency SOS - Status: " +:+ JS.ToString sos.["status"]) ∧
  (Api.formatSOS sos).["ability"] = JS.or_else sos.["ability"] (JStr "NONE") ∧
  (Api.formatSOS sos).["category"] = JUndefined.
Proof. unfold Api.formatSOS. js_get. by repeat split. Qed.

(** X14: The dashboard alert of an SOS record: an "SOS Alert" of risk score 95
    from "Unknown User", "Resolved" exactly when the record's status is
    SAFE, described by its status; its category is the ability reported,
    or NONE, never "Normal", and it is flagged vulnerable exactly when
    an ability other than NONE was reported. *)
Theorem sos_dashboard_alert sos :
  let shown := App.toAlert (Api.formatSOS sos) in
  shown.["alertType"] = JStr "SOS Alert" ∧
  shown.["riskScore"] = JNum 95 ∧
  shown.["userName"] = JStr "Unknown User" ∧
  shown.["status"]
    = (if JS.strict_eq sos.["status"] (JStr "SAFE") then JStr "Resolved" else JStr "Active") ∧
  shown.["description"] = JStr ("Emergency SOS - Status: " +:+ JS.ToString sos.["status"]) ∧
  shown.["userCategory"] = JS.or_else sos.["ability"] (JStr "NONE") ∧
  shown.["isVulnerable"]
    = JBool (JS.truthy sos.["ability"] && negb (JS.strict_eq sos.["ability"] (JStr "NONE"))).
Proof.
  assert (JS.truthy (JS.or_else sos.["ability"] (JStr "NONE")) = true) as Hability
    by by apply or_else_truthy.
  cbv zeta.
  destruct (toAlert_fields (Api.formatSOS sos))
    as (-> & -> & -> & -> & -> & -> & ->).
  destruct (formatSOS_fields sos) as (-> & -> & -> & -> & ->).
  rewrite formatSOS_message_type, formatSOS_is_read. simpl.
  repeat split; try done.
  - rewrite (or_else_l (JS.or_else sos.["ability"] (JStr "NONE")) JUndefined) by done.
    by rewrite (or_else_l (JS.or_else sos.["ability"] (JStr "NONE"))).
  - unfold JS.and_then. rewrite Hability. unfold JS.or_else.
    destruct (JS.truthy sos.["ability"]); [done|]. done.
Qed.

(** X15: The dashboard alert of an incident record: an "Incident", "Resolved"
    exactly when the record is RESOLVED or VERIFIED, never flagged
    vulnerable, described by the record's description or else by its title.
    Its risk score follows the risk level without regard to case: 95 for
    critical, 75 for high, 50 for medium and also when there is no level,
    25 for anything else. *)
Theorem incident_dashboard_alert inc a :
  Api.formatIncident inc = Normal a →
  let shown := App.toAlert a in
  shown.["alertType"] = JStr "Incident" ∧
  shown.["status"]
    = (if JS.strict_eq inc.["status"] (JStr "RESOLVED")
          || JS.strict_eq inc.["status"] (JStr "VERIFIED")
       then JStr "Resolved" else JStr "Active") ∧
  JS.truthy shown.["isVulnerable"] = false ∧
  shown.["userCategory"] = JS.or_else inc.["type"] (JStr "Normal") ∧
  shown.["description"]
    = JS.or_else inc.["description"] (JStr ("Incident: " +:+ JS.ToString inc.["type"])) ∧
  (JS.truthy inc.["risk_level"] = false → shown.["riskScore"] = JNum 50) ∧
  (∀ level,
     inc.["risk_level"] = JStr level → level ≠ "" →
     shown.["riskScore"]
     = if String.eqb (JS.toLowerCase level) "critical" then JNum 95
       else if String.eqb (JS.toLowerCase level) "high" then JNum 75
       else if String.eqb (JS.toLowerCase level) "medium" then JNum 50
       else JNum 25).
Proof.
  intros Ha.
  destruct (formatIncident_fields _ _ Ha)
    as (_ & _ & Htype & _ & _ & _ & Hcontent & Htitle & _ & _).
  destruct (formatIncident_inv _ _ Ha)
    as (lowered & Hlow & Hsev & Hread & Hcat & _ & Hability & _).
  cbv zeta. destruct (toAlert_fields a) as (-> & -> & _ & -> & -> & -> & ->).
  rewrite Htype, Hread, Hability, Hcat, Hcontent, Htitle, Hsev. simpl.
  split; [done|]. split; [done|]. split; [done|]. split; [done|].
  split; [by rewrite or_else_l by by apply or_else_truthy|].
  unfold Api.optional_toLowerCase in Hlow. split.
  - intros Hfalsy.
    destruct (inc.["risk_level"]) as [| |[]|n|level]; simplify_eq; try done.
    simpl in Hfalsy. apply negb_false_iff, String.eqb_eq in Hfalsy. by subst.
  - intros level Hlevel Hnonempty. rewrite Hlevel in Hlow. simplify_eq.
    assert (JS.or_else (JStr (JS.toLowerCase level)) (JStr "medium")
            = JStr (JS.toLowerCase level)) as ->.
    { apply or_else_l. destruct level; [done|]. done. }
    by rewrite !strict_eq_str.
Qed.

End Dashboard.

(** ** services/api.js: the statistics in terms of the records received *)

Section StatsFromSources.
Context `{DateParse}.
Implicit Types (l : list obj) (p q : obj → bool).

Lemma count_app p l1 l2 : JS.count p (l1 ++ l2) = JS.count p l1 + JS.count p l2.
Proof.
  induction l1 as [|a l1 IH]; [done|].
  rewrite <- app_comm_cons, !count_cons, IH. lia.
Qed.

Lemma count_perm p l1 l2 : l1 ≡ₚ l2 → JS.count p l1 = JS.count p l2.
Proof.
  induction 1 as [|a l1 l2 _ IH|a b l|l1 l2 l3 _ IH1 _ IH2];
    rewrite ?count_cons; try done; [by rewrite IH|lia|congruence].
Qed.

Lemma count_fmap p (f : obj → obj) l : JS.count p (f <$> l) = JS.count (λ a, p (f a)) l.
Proof.
  induction l as [|a l IH]; [done|]. by rewrite fmap_cons, !count_cons, IH.
Qed.

Lemma count_ext p q l : (∀ a, p a = q a) → JS.count p l = JS.count q l.
Proof. intros Hpq. unfold JS.count. by rewrite (List.filter_ext p q Hpq). Qed.

Lemma count_formatted p q incidents formatted :
  mapM Api.formatIncident incidents = Normal formatted →
  (∀ inc a, Api.formatIncident inc = Normal a → p a = q inc) →
  JS.count p formatted = JS.count q incidents.
Proof.
  intros Hm%mapM_formatIncident_inv Hpq.
  induction Hm as [|inc a incs fi Ha _ IH]; [done|].
  by rewrite !count_cons, IH, (Hpq inc a).
Qed.

Lemma count_const (b : bool) l :
  JS.count (λ _, b) l = if b then Z.of_nat (length l) else 0.
Proof.
  destruct b; [by apply count_all|]. apply count_none. by apply Forall_true.
Qed.

Lemma formatted_incidents_length incidents formatted :
  mapM Api.formatIncident incidents = Normal formatted →
  length formatted = length incidents.
Proof. intros Hm%mapM_formatIncident_inv. symmetry. by eapply Forall2_length. Qed.

Lemma mapM_formatIncident_throws incidents :
  Exists (λ inc, ¬ risk_level_text inc) incidents →
  ∃ e, mapM Api.formatIncident incidents = Throw e.
Proof.
  induction 1 as [inc incidents Hbad|inc incidents _ [e IH]]; simpl.
  - assert (∃ e, Api.formatIncident inc = Throw e) as [e ->]; [|by eexists].
    unfold risk_level_text in Hbad. unfold Api.formatIncident, Api.optional_toLowerCase.
    destruct (inc.["risk_level"]); try (by destruct Hbad); by eexists.
  - destruct (Api.formatIncident inc) as [a|e']; simpl; [|by eexists].
    rewrite IH. by eexists.
Qed.

(** X16: The statistics of a snapshot in terms of the three collections
    received, when the incident records are well formed.  The total is the
    number of records; the unread count adds the messages whose read flag is
    falsy, the SOS records whose status is not SAFE and the incidents that
    are neither RESOLVED nor VERIFIED; the SOS and INCIDENT counters add the
    messages of that type to the records of that source; the GENERAL counter
    is the number of messages of type GENERAL. *)
Theorem stats_from_sources m s i :
  Forall risk_level_text (Api.extract i) →
  ∃ snap,
    Api.getAllAlertsForAdmin m s i = Normal snap ∧
    let st := Api.stats snap in
    Api.total st
      = Z.of_nat (length (Api.extract m)) + Z.of_nat (length (Api.extract s))
        + Z.of_nat (length (Api.extract i)) ∧
    Api.unread st
      = JS.count (λ msg, negb (JS.truthy msg.["is_read"])) (Api.extract m)
        + JS.count (λ sos, negb (JS.strict_eq sos.["status"] (JStr "SAFE"))) (Api.extract s)
        + JS.count (λ inc, negb (JS.strict_eq inc.["status"] (JStr "RESOLVED")
                                 || JS.strict_eq inc.["status"] (JStr "VERIFIED")))
                   (Api.extract i) ∧
    Api.SOS (Api.by_type st)
      = JS.count (Api.has_type "SOS") (Api.extract m) + Z.of_nat (length (Api.extract s)) ∧
    Api.INCIDENT (Api.by_type st)
      = JS.count (Api.has_type "INCIDENT") (Api.extract m)
        + Z.of_nat (length (Api.extract i)) ∧
    Api.GENERAL (Api.by_type st) = JS.count (Api.has_type "GENERAL") (Api.extract m) ∧
    Api.sos_count st = Api.SOS (Api.by_type st) ∧
    Api.incident_count st = Api.INCIDENT (Api.by_type st).
Proof.
  intros Hwell. destruct (mapM_formatIncident_total _ Hwell) as [fi Hfi].
  set (allItems := ((Api.formatMessage <$> Api.extract m)
                    ++ (Api.formatSOS <$> Api.extract s) ++ fi)%list).
  exists {| Api.messages := JS.Array_sort Api.by_date_desc allItems;
            Api.stats := Api.compute_stats (JS.Array_sort Api.by_date_desc allItems) |}.
  split.
  { unfold Api.getAllAlertsForAdmin, Api.getAllAlertsForAdmin_try. by rewrite Hfi. }
  assert (∀ p, JS.count p (JS.Array_sort Api.by_date_desc allItems)
               = JS.count (λ msg, p (Api.formatMessage msg)) (Api.extract m)
                 + JS.count (λ sos, p (Api.formatSOS sos)) (Api.extract s)
                 + JS.count p fi) as Hcount.
  { intros p. rewrite (count_perm _ _ _ (Array_sort_perm _ _)). unfold allItems.
    rewrite !count_app, !count_fmap. lia. }
  assert (∀ t, JS.count (λ msg, Api.has_type t (Api.formatMessage msg)) (Api.extract m)
               = JS.count (Api.has_type t) (Api.extract m)) as Hmsg.
  { intros t. apply count_ext. intros msg. unfold Api.has_type.
    by rewrite formatMessage_other. }
  assert (∀ t, JS.count (λ sos, Api.has_type t (Api.formatSOS sos)) (Api.extract s)
               = JS.count (λ _, String.eqb "SOS" t) (Api.extract s)) as Hsos.
  { intros t. apply count_ext. intros sos. unfold Api.has_type.
    by rewrite formatSOS_message_type, strict_eq_str. }
  assert (∀ t, JS.count (Api.has_type t) fi
               = JS.count (λ _, String.eqb "INCIDENT" t) (Api.extract i)) as Hinc.
  { intros t. eapply count_formatted; [exact Hfi|]. intros inc a Ha.
    apply formatIncident_fields in Ha as (_ & _ & Htype & _).
    unfold Api.has_type. by rewrite Htype, strict_eq_str. }
  assert (JS.count (λ msg, Api.is_unread (Api.formatMessage msg)) (Api.extract m)
          = JS.count (λ msg, negb (JS.truthy msg.["is_read"])) (Api.extract m)) as Hum.
  { apply count_ext. intros msg. unfold Api.is_unread. by rewrite formatMessage_is_read. }
  assert (JS.count (λ sos, Api.is_unread (Api.formatSOS sos)) (Api.extract s)
          = JS.count (λ sos, negb (JS.strict_eq sos.["status"] (JStr "SAFE")))
                     (Api.extract s)) as Hus.
  { apply count_ext. intros sos. unfold Api.is_unread. by rewrite formatSOS_is_read. }
  assert (JS.count Api.is_unread fi
          = JS.count (λ inc, negb (JS.strict_eq inc.["status"] (JStr "RESOLVED")
                                   || JS.strict_eq inc.["status"] (JStr "VERIFIED")))
                     (Api.extract i)) as Hui.
  { eapply count_formatted; [exact Hfi|]. intros inc a Ha.
    apply formatIncident_inv in Ha as (_ & _ & _ & Hread & _).
    unfold Api.is_unread. by rewrite Hread. }
  simpl. rewrite !Hcount, !Hmsg, !Hsos, !Hinc, !count_const, Hum, Hus, Hui. simpl.
  repeat split; try lia.
  rewrite Array_sort_perm. unfold allItems.
  rewrite !length_app, !length_fmap, (formatted_incidents_length _ _ Hfi). lia.
Qed.

(** X17: One incident record whose risk level is a boolean or a number costs the
    whole feed: its adapter throws, the [catch] takes over, and the snapshot
    is the empty one whatever the messages and SOS records were. *)
Theorem malformed_incident_loses_feed m s i :
  Exists (λ inc, ¬ risk_level_text inc) (Api.extract i) →
  Api.getAllAlertsForAdmin m s i = Normal Api.empty_snapshot.
Proof.
  intros [e He]%mapM_formatIncident_throws.
  unfold Api.getAllAlertsForAdmin, Api.getAllAlertsForAdmin_try. by rewrite He.
Qed.

End StatsFromSources.

(** ** services/api.js: the other requests *)

Section OtherRequests.
Implicit Types (server : string → Requests.reply) (params : obj).

Lemma with_fallback_cases first second server :
  (∃ records,
     Requests.collection_or_empty (server first) = Normal records ∧
     Requests.with_fallback first second server = ([first], Normal records)) ∨
  (∃ e records,
     Requests.collection_or_empty (server first) = Throw e ∧
     Requests.collection_or_empty (server second) = Normal records ∧
     Requests.with_fallback first second server = ([first; second], Normal records)) ∨
  (∃ e e',
     Requests.collection_or_empty (server first) = Throw e ∧
     Requests.collection_or_empty (server second) = Throw e' ∧
     Requests.with_fallback first second server = ([first; second], Normal [])).
Proof.
  unfold Requests.with_fallback.
  destruct (Requests.collection_or_empty (server first)) as [records|e].
  - left. by exists records.
  - destruct (Requests.collection_or_empty (server second)) as [records|e'].
    + right. left. by exists e, records.
    + right. right. by exists e, e'.
Qed.

(** X18: The readers with a fallback never fail.  [getAllSOSAlerts] asks the
    admin endpoint and, only when that request fails or brings no data, the
    user endpoint; it returns the first collection it gets, and the empty
    array when both fail.  [getAllIncidentsDirect] does the same with its
    two endpoints.  The legacy readers [getSOS] and [getIncidents] make the
    same requests and return the same, their own [catch] is never taken. *)
Theorem readers_fall_back server :
  (∃ records, (Requests.getAllSOSAlerts server).2 = Normal records) ∧
  (∃ records, (Requests.getAllIncidentsDirect server).2 = Normal records) ∧
  Requests.getSOS server = Requests.getAllSOSAlerts server ∧
  Requests.getIncidents server = Requests.getAllIncidentsDirect server ∧
  (∀ records,
     Requests.collection_or_empty (server "/api/admin/sos") = Normal records →
     Requests.getAllSOSAlerts server = (["/api/admin/sos"], Normal records)) ∧
  (∀ e,
     Requests.collection_or_empty (server "/api/admin/sos") = Throw e →
     (Requests.getAllSOSAlerts server).1 = ["/api/admin/sos"; "/api/sos/user"] ∧
     (Requests.getAllSOSAlerts server).2
     = JS.try_catch (Requests.getUserSOSAlerts server).2 (Normal [])) ∧
  (∀ records,
     Requests.collection_or_empty (server "/api/admin/incidents") = Normal records →
     Requests.getAllIncidentsDirect server = (["/api/admin/incidents"], Normal records)) ∧
  (∀ e,
     Requests.collection_or_empty (server "/api/admin/incidents") = Throw e →
     (Requests.getAllIncidentsDirect server).1
     = ["/api/admin/incidents"; "/api/incidents/user"] ∧
     (Requests.getAllIncidentsDirect server).2
     = JS.try_catch (Requests.getUserIncidents server).2 (Normal [])).
Proof.
  unfold Requests.getSOS, Requests.getIncidents, Requests.getAllSOSAlerts,
    Requests.getAllIncidentsDirect, Requests.getUserSOSAlerts, Requests.getUserIncidents.
  destruct (with_fallback_cases "/api/admin/sos" "/api/sos/user" server)
    as [(r1 & Ha1 & ->)|[(e1 & r1 & Ha1 & Hu1 & ->)|(e1 & e1' & Ha1 & Hu1 & ->)]];
  destruct (with_fallback_cases "/api/admin/incidents" "/api/incidents/user" server)
    as [(r2 & Ha2 & ->)|[(e2 & r2 & Ha2 & Hu2 & ->)|(e2 & e2' & Ha2 & Hu2 & ->)]];
  simpl; rewrite ?Ha1, ?Ha2, ?Hu1, ?Hu2; simpl;
  repeat split; try done; try (by eexists); by intros; simplify_eq.
Qed.



(** X21: [sendUserStatus] posts at most one incident.  When the simulated error
    fires it posts nothing and fails.  Otherwise it posts one body titled
    "Status Update", without image, whose content, category and severity are
    never falsy ("User status update", "general" and "low" stand in), and it
    fails exactly when the request fails. *)
Theorem user_status_post simulated_error post statusData :
  let sent := Requests.sendUserStatus simulated_error post statusData in
  (simulated_error = true → sent.1 = [] ∧ ∃ e, sent.2 = Throw e) ∧
  (simulated_error = false →
   ∃ body,
     sent.1 = [body] ∧
     body.["title"] = JStr "Status Update" ∧
     body.["image_url"] = JNull ∧
     JS.truthy body.["content"] = true ∧
     JS.truthy body.["category"] = true ∧
     JS.truthy body.["severity"] = true ∧
     body.["lat"] = statusData.["lat"] ∧ body.["lng"] = statusData.["lng"] ∧
     ((∃ e, sent.2 = Throw e) ↔ (∃ e, post body = Throw e)) ∧
     (∀ data, post body = Normal data →
        ∃ result, sent.2 = Normal result ∧ result.["data"] = data ∧
                  result.["success"] = JBool true)).
Proof.
  unfold Requests.sendUserStatus, Requests.sendIncident. split.
  - intros ->. split; [done|by eexists].
  - intros ->. eexists. split; [done|].
    unfold Requests.sendIncident_body at 1 2 3 4 5 6 7. js_get.
    split; [done|]. split; [done|].
    split; [by apply or_else_truthy|]. split; [by apply or_else_truthy|].
    split; [by apply or_else_truthy|]. split; [done|]. split; [done|]. simpl.
    destruct (post _) as [data|e]; simpl.
    + split; [split; intros [e He]; done|].
      intros data' [= <-]. eexists. split; [done|]. by js_get.
    + split; [split; by eexists|]. done.
Qed.

End OtherRequests.

(** ** components/SystemHealthStrip.jsx *)

Section HealthStrip.
Implicit Types (h : Health.health_t) (name : string).




(** X22: [getSystemHealth] never fails: when the request to [/health] fails it
    answers with a stand-in object.  That object has no [services], and
    rendering the strip with it throws, as does rendering any health object
    without a service list. *)
Theorem health_fallback_breaks_strip response :
  (∃ health, Health.getSystemHealth response = Normal health) ∧
  (∀ health, response = Normal health → Health.getSystemHealth response = Normal health) ∧
  (∀ e, response = Throw e →
     Health.getSystemHealth response = Normal (Some Health.mock) ∧
     ∃ e', Health.render (Some Health.mock) = Throw e') ∧
  (∀ h, Health.services h = None → ∃ e', Health.render (Some h) = Throw e') ∧
  Health.render None = Normal Health.LoadingStatus.
Proof.
  split; [destruct response; by eexists|]. split; [by intros health ->|].
  split; [intros e ->; split; [done|by eexists]|].
  split; [|done]. intros h Hnone. unfold Health.render. rewrite Hnone. by eexists.
Qed.


End HealthStrip.

(** ** Worked examples *)

#[local] Existing Instance numeric_dates_only.

(** One aggregation over the three example records: newest first. *)
Example feed_of_three :
  ∃ snap,
    Api.getAllAlertsForAdmin (Api.Fulfilled (Some [msg_m1])) (Api.Fulfilled (Some [sos_s1]))
                             (Api.Fulfilled (Some [inc_i1])) = Normal snap ∧
    (λ a, a.["id"]) <$> Api.messages snap = [JStr "s1"; JStr "m1"; JStr "i1"] ∧
    Api.stats snap
    = {| Api.total := 3; Api.unread := 2; Api.sos_count := 1; Api.incident_count := 1;
         Api.by_type := {| Api.SOS := 1; Api.INCIDENT := 1; Api.GENERAL := 1 |} |}.
Proof. eexists. split; [reflexivity|]. by vm_compute. Qed.

(** A risk level that is a number makes the incident adapter throw, and the
    [catch] answers with the empty snapshot. *)
Example malformed_incident_empties_feed :
  Api.getAllAlertsForAdmin (Api.Fulfilled (Some [msg_m1])) (Api.Fulfilled (Some [sos_s1]))
                           (Api.Fulfilled (Some [inc_i2])) = Normal Api.empty_snapshot.
Proof. by vm_compute. Qed.

(** C1 does not hold as stated: a message of type ALERT is in the total and
    in none of the three [by_type] counters. *)
Lemma by_type_misses_other_types :
  ∃ snap,
    Api.getAllAlertsForAdmin (Api.Fulfilled (Some [msg_m2])) Api.Rejected Api.Rejected
      = Normal snap ∧
    Api.total (Api.stats snap) = 1 ∧
    Api.SOS (Api.by_type (Api.stats snap)) + Api.INCIDENT (Api.by_type (Api.stats snap))
      + Api.GENERAL (Api.by_type (Api.stats snap)) = 0 ∧
    Api.SOS (Api.by_type (Api.stats snap)) + Api.INCIDENT (Api.by_type (Api.stats snap))
      + Api.GENERAL (Api.by_type (Api.stats snap)) ≠ Api.total (Api.stats snap).
Proof. eexists. split; [reflexivity|]. by vm_compute. Qed.

Lemma stats_match_feed_witness :
  ∃ snap,
    Api.getAllAlertsForAdmin (Api.Fulfilled (Some [msg_m1])) (Api.Fulfilled (Some [sos_s1]))
                             (Api.Fulfilled (Some [inc_i1])) = Normal snap ∧
    Api.SOS (Api.by_type (Api.stats snap)) + Api.INCIDENT (Api.by_type (Api.stats snap))
      + Api.GENERAL (Api.by_type (Api.stats snap)) = Api.total (Api.stats snap).
Proof.
  eexists. split; [reflexivity|].
  refine (proj2 (proj2 (proj2 (stats_match_feed
    (Api.Fulfilled (Some [msg_m1])) (Api.Fulfilled (Some [sos_s1]))
    (Api.Fulfilled (Some [inc_i1])) _ eq_refl))) _).
  repeat constructor.
Defined.

Lemma aggregation_fails_soft_witness :
  ∃ snap,
    Api.getAllAlertsForAdmin (Api.Fulfilled (Some [msg_m1])) Api.Rejected
                             (Api.Fulfilled (Some [inc_i1])) = Normal snap ∧
    Api.total (Api.stats snap) = 2 ∧
    Forall (λ a, a.["sourceType"] = JStr "MESSAGE" ∨ a.["sourceType"] = JStr "INCIDENT")
           (Api.messages snap).
Proof.
  destruct (aggregation_fails_soft (Api.Fulfilled (Some [msg_m1])) Api.Rejected
              (Api.Fulfilled (Some [inc_i1]))) as (_ & _ & _ & _ & Hwell & Hbrought & _).
  destruct (Hbrought (Some [msg_m1]) None (Some [inc_i1]))
    as (snap & fi & Hsnap & _ & _ & Htotal).
  { simpl. repeat constructor. }
  destruct Hwell as (snap' & fi' & Hsnap' & _ & _ & Hsos).
  { simpl. repeat constructor. }
  change (Api.getAllAlertsForAdmin (Api.Fulfilled (Some [msg_m1])) Api.Rejected
            (Api.Fulfilled (Some [inc_i1])) = Normal snap) in Hsnap.
  rewrite Hsnap in Hsnap'. injection Hsnap' as <-.
  exists snap. split; [exact Hsnap|]. split; [exact Htotal|]. by apply Hsos.
Defined.

Lemma feed_newest_first_witness :
  ∃ snap,
    Api.getAllAlertsForAdmin (Api.Fulfilled (Some [msg_m1])) (Api.Fulfilled (Some [sos_s1]))
                             (Api.Fulfilled (Some [inc_i1])) = Normal snap ∧
    StronglySorted (λ a b, time_value created b < time_value created a) (Api.messages snap).
Proof.
  destruct (feed_newest_first (Api.Fulfilled (Some [msg_m1])) (Api.Fulfilled (Some [sos_s1]))
              (Api.Fulfilled (Some [inc_i1])))
    as (snap & fi & Hsnap & Hfi & _ & _ & _ & Hstrict).
  - simpl. repeat constructor.
  - simpl. repeat constructor; by eexists.
  - exists snap. split; [exact Hsnap|]. apply Hstrict.
    injection Hfi as <-. apply (bool_decide_unpack _). vm_compute. exact I.
Defined.

Lemma sos_adapter_fields_witness :
  (Api.formatSOS sos_s1).["title"] = JStr "SOS Alert (BLIND)".
Proof.
  refine (proj1 (proj2 (proj2 (proj2 (proj2 (sos_adapter_fields sos_s1))))) "BLIND" _ _).
  - reflexivity.
  - discriminate.
Defined.

(** C8 does not hold as stated: a message record with every property of the
    messages endpoint comes out of its adapter without [_backendId],
    [severity] and [status]. *)
Lemma message_adapter_leaves_fields_out :
  Forall (present msg_m1)
    ["id"; "user_id"; "user_name"; "message_type"; "title"; "content"; "is_read";
     "created_at"] ∧
  (Api.formatMessage msg_m1).["_backendId"] = JUndefined ∧
  (Api.formatMessage msg_m1).["severity"] = JUndefined ∧
  (Api.formatMessage msg_m1).["status"] = JUndefined ∧
  ¬ Forall (present (Api.formatMessage msg_m1)) canonical_fields.
Proof.
  split; [repeat constructor; by vm_compute|]. repeat split; try done.
  intros Hall. rewrite Forall_forall in Hall.
  apply (Hall "_backendId"); [|done].
  unfold canonical_fields. set_solver.
Qed.

Lemma adapters_fill_fields_witness :
  Forall (present (Api.formatSOS sos_s1)) canonical_fields ∧
  (∃ a, Api.formatIncident inc_i1 = Normal a ∧ Forall (present a) canonical_fields) ∧
  Forall (present inc_i2) ["id"; "status"; "created_at"; "description"] ∧
  ∃ e, Api.formatIncident inc_i2 = Throw e.
Proof.
  destruct adapters_fill_fields as (Hsos & Hincident & _ & Hthrow & _). split; [|split].
  - refine (proj1 (Hsos sos_s1 _ _ _)); vm_compute; discriminate.
  - destruct (Hincident inc_i1) as (a & Ha & Hfields & _).
    + vm_compute. exact I.
    + vm_compute. discriminate.
    + vm_compute. discriminate.
    + vm_compute. discriminate.
    + vm_compute. discriminate.
    + by exists a.
  - split; [repeat constructor; vm_compute; discriminate|].
    apply Hthrow. vm_compute. intros [].
Defined.

(** C2 does not hold as stated.  After a fetch that brings an unread message
    and a verified incident (read, yet still offered for resolving), the
    counter matches the list; resolving the incident lowers the counter to 0
    while the message is still unread. *)
Lemma resolve_of_read_alert_drifts :
  let st := AdminActions.run
    [AdminActions.FetchEnd (Api.Fulfilled (Some [msg_m1])) Api.Rejected
                           (Api.Fulfilled (Some [inc_i1]))] in
  let alert := default ∅ (AdminActions.rendered st !! 1%nat) in
  let st' := (AdminActions.handleResolve always_ok alert st).2 in
  alert.["id"] = JStr "i1" ∧
  AdminActions.offers_resolve alert = true ∧
  AdminActions.unread_consistent st ∧
  AdminActions.unread (AdminActions.stats st') = 0 ∧
  JS.count Api.is_unread (AdminActions.alerts st') = 1 ∧
  ¬ AdminActions.unread_consistent st'.
Proof. by vm_compute. Qed.

Lemma mutation_updates_state_witness :
  let st := AdminActions.run
    [AdminActions.FetchEnd (Api.Fulfilled (Some [msg_m1])) (Api.Fulfilled (Some [sos_s1]))
                           Api.Rejected] in
  AdminActions.unread_consistent
    (AdminActions.handleResolve always_ok (Api.formatSOS sos_s1) st).2 ∧
  AdminActions.unread_consistent
    (AdminActions.handleMarkRead always_ok (JStr "m1") st).2.
Proof.
  intros st.
  destruct (mutation_updates_state always_ok st) as [Hresolve Hmark]. split.
  - refine (proj2 (proj2 (proj2 (proj2 (Hresolve (Api.formatSOS sos_s1) _))) _) _).
    + intros r _. reflexivity.
    + vm_compute. reflexivity.
    + left. vm_compute. reflexivity.
  - refine (proj2 (proj2 (proj2 (proj2 (Hmark (JStr "m1") _))) _) _).
    + reflexivity.
    + vm_compute. reflexivity.
    + left. vm_compute. reflexivity.
Defined.


(** C4 does not hold as stated: [handleResolve], run a second time on the
    SOS alert it has just resolved, calls the backend again and lowers the
    unread counter once more, below the number of unread alerts. *)
Lemma second_resolve_calls_backend :
  let st := AdminActions.run
    [AdminActions.FetchEnd (Api.Fulfilled (Some [msg_m1])) (Api.Fulfilled (Some [sos_s1]))
                           Api.Rejected] in
  let alert := Api.formatSOS sos_s1 in
  let st1 := (AdminActions.handleResolve always_ok alert st).2 in
  let again := AdminActions.handleResolve always_ok alert st1 in
  (λ a, (a.["id"], a.["is_read"], a.["status"])) <$> AdminActions.alerts st1
    = [(JStr "s1", JBool true, JStr "SAFE"); (JStr "m1", JBool false, JUndefined)] ∧
  already_resolved alert st1 = true ∧
  again.1 = [AdminActions.resolveSOS (JStr "s1")] ∧
  (λ a, (a.["id"], a.["is_read"], a.["status"])) <$> AdminActions.alerts again.2
    = [(JStr "s1", JBool true, JStr "SAFE"); (JStr "m1", JBool false, JUndefined)] ∧
  AdminActions.unread (AdminActions.stats st1) = 1 ∧
  AdminActions.unread (AdminActions.stats again.2) = 0 ∧
  AdminActions.stats again.2 ≠ AdminActions.stats st1.
Proof. by vm_compute. Qed.

Lemma resolve_again_witness :
  let st := AdminActions.run
    [AdminActions.FetchEnd (Api.Fulfilled (Some [msg_m1])) (Api.Fulfilled (Some [sos_s1]))
                           Api.Rejected] in
  let st1 := (AdminActions.handleResolve always_ok (Api.formatSOS sos_s1) st).2 in
  let alert := default ∅ (AdminActions.alerts st1 !! 0%nat) in
  AdminActions.offers_resolve alert = false ∧
  AdminActions.alerts (AdminActions.handleResolve always_ok alert st1).2
  = AdminActions.alerts st1 ∧
  AdminActions.unread (AdminActions.stats (AdminActions.handleResolve always_ok alert st1).2)
  = Z.max (AdminActions.unread (AdminActions.stats st1) - 1) 0.
Proof.
  intros st st1 alert.
  destruct (resolve_again always_ok alert st1) as (Hgate & Hfixed & _ & _ & Hunread).
  split; [|split].
  - apply Hgate. left. vm_compute. reflexivity.
  - apply Hfixed. vm_compute. reflexivity.
  - apply Hunread. intros r _. reflexivity.
Defined.

(** C6 does not hold as stated: two calls of [fetchData] put two cycles in
    flight; when the later one settles first, with the message read, and the
    earlier one after it, with the message still unread, the earlier result
    is the current snapshot. *)
Lemma late_cycle_overwrites_newer :
  let earlier := App.Settle 0 (Api.Fulfilled (Some [msg_m1])) Api.Rejected Api.Rejected in
  let later := App.Settle 1 (Api.Fulfilled (Some [msg_m1_read])) Api.Rejected Api.Rejected in
  App.in_flight (App.run [App.Invoke; App.Invoke]) = [1%nat; 0%nat] ∧
  Api.is_unread <$> App.messages (App.app (App.run [App.Invoke; App.Invoke; later]))
    = [false] ∧
  Api.is_unread <$> App.messages (App.app (App.run [App.Invoke; App.Invoke; later; earlier]))
    = [true].
Proof. by vm_compute. Qed.

Lemma cycles_apply_as_they_settle_witness :
  ∃ snap,
    Api.getAllAlertsForAdmin (Api.Fulfilled (Some [msg_m1])) Api.Rejected Api.Rejected
      = Normal snap ∧
    App.messages (App.app (App.step (App.run [App.Invoke; App.Invoke])
      (App.Settle 0 (Api.Fulfilled (Some [msg_m1])) Api.Rejected Api.Rejected)))
    = Api.messages snap.
Proof.
  destruct (proj1 (proj2 (cycles_apply_as_they_settle (App.run [App.Invoke; App.Invoke])))
              0%nat (Api.Fulfilled (Some [msg_m1])) Api.Rejected Api.Rejected)
    as (snap & Hsnap & Hmessages & _).
  - vm_compute. set_solver.
  - by exists snap.
Defined.

(** ** Worked examples for the further properties *)

#[local] Existing Instance plain_locale.

Lemma page_change_is_lost_witness :
  AuditLogs.handleFilterChange "page" (JNum 2) AuditLogs.initial_filters
    = AuditLogs.initial_filters ∧
  (AuditLogs.handleFilterChange "action" (JStr "LOGIN") AuditLogs.initial_filters).["page"]
    = JNum 1 ∧
  (AuditLogs.handleFilterChange "pageSize" (JNum 10) AuditLogs.initial_filters).["page"]
    = JNum 1.
Proof.
  split; [|split].
  - apply (page_change_is_lost "page" (JNum 2) AuditLogs.initial_filters).
    vm_compute. discriminate.
  - refine (proj1 (proj1 (proj2 (proj2
      (page_change_is_lost "action" (JStr "LOGIN") AuditLogs.initial_filters))) _)).
    left. reflexivity.
  - refine (proj2 (proj2 (proj2
      (page_change_is_lost "pageSize" (JNum 10) AuditLogs.initial_filters))) _ _);
      discriminate.
Defined.

Lemma page_stays_first_witness :
  filters_verify.["pageSize"] = JNum 50.
Proof.
  refine (proj2 (page_stays_first
    [("action", JStr "VERIFY_INCIDENT"); ("page", JNum 2)]) _).
  repeat constructor; discriminate.
Defined.

Lemma audit_request_witness :
  (AuditLogs.getAuditLogs_query (AuditLogs.fetchAuditLogs_params filters_verify)).["page"]
    = JNum 1 ∧
  (AuditLogs.getAuditLogs_query (AuditLogs.fetchAuditLogs_params filters_verify)).["page_size"]
    = JNum 50.
Proof.
  refine (proj2 (proj2 (proj2 (proj2 (proj2 (audit_request filters_verify)))))
            [("action", JStr "VERIFY_INCIDENT"); ("page", JNum 2)] _ _).
  - reflexivity.
  - repeat constructor; discriminate.
Defined.

Lemma audit_fetch_outcome_witness :
  AuditLogs.error (AuditLogs.fetchAuditLogs_end (Throw "Network Error")
                     (AuditLogs.fetchAuditLogs_begin AuditLogs.initial))
    = Some "Failed to load audit logs. Please try again." ∧
  AuditLogs.error
    (AuditLogs.fetchAuditLogs_end
       (Normal (Some {| AuditLogs.audit_logs := None; AuditLogs.page_total := JUndefined |}))
       (AuditLogs.fetchAuditLogs_begin AuditLogs.initial)) = None.
Proof.
  split.
  - refine (proj1 (proj2 (proj2 (proj2
      (audit_fetch_outcome (Throw "Network Error") AuditLogs.initial))) _)).
    right. eexists. reflexivity.
  - refine (proj1 (proj1 (proj2 (proj2
      (audit_fetch_outcome (Normal (Some _)) AuditLogs.initial))) _ eq_refl)).
Defined.

Lemma pagination_controls_witness :
  AuditLogs.next_disabled 1 50 120 false = false ∧ 1 < AuditLogs.page_count 120 50.
Proof.
  assert (0 < 50) as Hsize by lia.
  destruct (pagination_controls 1 50 120 Hsize) as (_ & Hshown & _ & Hnext & _).
  split; [apply Hnext; reflexivity|apply Hshown; reflexivity].
Defined.

Lemma formatAction_shape_witness :
  AuditLogs.formatAction (AuditLogs.formatAction "RESOLVE_INCIDENT")
  = AuditLogs.formatAction "RESOLVE_INCIDENT".
Proof.
  refine (proj2 (proj2 (formatAction_shape "RESOLVE_INCIDENT" _))). reflexivity.
Defined.

Lemma buttons_by_source_witness :
  ∃ a, Api.formatIncident inc_i1 = Normal a ∧
       AdminActions.offers_resolve a = true ∧ AdminActions.offers_mark_read a = false.
Proof.
  eexists. split; [reflexivity|].
  refine (proj2 (proj2 (proj1 (proj2 buttons_by_source) inc_i1 _ eq_refl)) _).
  reflexivity.
Defined.

Lemma buttons_after_mutation_witness :
  let st := AdminActions.run
    [AdminActions.FetchEnd (Api.Fulfilled (Some [msg_m1])) (Api.Fulfilled (Some [sos_s1]))
                           Api.Rejected] in
  Forall (λ a', a'.["id"] = JStr "s1" →
                AdminActions.offers_resolve a' = false ∧
                AdminActions.offers_mark_read a' = false)
         (AdminActions.alerts
            (AdminActions.handleResolve always_ok (Api.formatSOS sos_s1) st).2).
Proof.
  intros st. apply Forall_forall. intros a' Ha' Hid.
  refine (proj1 (proj1 (buttons_after_mutation always_ok st)
                         (Api.formatSOS sos_s1) _ a' Ha') _).
  - intros r _. reflexivity.
  - rewrite Hid. reflexivity.
Defined.

Lemma formatTimestamp_ranges_witness :
  AdminActionsRow.formatTimestamp 1700000300000 (JNum 1700000000000) = "5m ago".
Proof.
  destruct (proj1 (proj2 (proj2 (proj2 (formatTimestamp_ranges 1700000300000
              (JNum 1700000000000))) 1700000000000 eq_refl eq_refl)))
    as (mins & -> & Hmins & Hdiff).
  - lia.
  - assert (mins = 5) as -> by lia. reflexivity.
Defined.

Lemma app_unread_badge_witness :
  ∃ snap,
    Api.getAllAlertsForAdmin (Api.Fulfilled (Some [msg_m1_read])) Api.Rejected Api.Rejected
      = Normal snap ∧
    App.unread (App.stats (App.fetchData_end
      (Api.getAllAlertsForAdmin (Api.Fulfilled (Some [msg_m1_read])) Api.Rejected Api.Rejected)
      App.initial)) = 1.
Proof.
  destruct (app_unread_badge (Api.Fulfilled (Some [msg_m1_read])) Api.Rejected Api.Rejected
              App.initial) as (snap & Hsnap & _ & _ & _ & _ & _ & Hall_read).
  exists snap. split; [exact Hsnap|]. rewrite Hall_read.
  - injection Hsnap as <-. reflexivity.
  - injection Hsnap as <-. vm_compute. reflexivity.
Defined.

Lemma incident_dashboard_alert_witness :
  ∃ a, Api.formatIncident inc_i1 = Normal a ∧ (App.toAlert a).["riskScore"] = JNum 75.
Proof.
  eexists. split; [reflexivity|].
  refine (proj2 (proj2 (proj2 (proj2 (proj2 (proj2
    (incident_dashboard_alert inc_i1 _ eq_refl)))))) "HIGH" _ _).
  - reflexivity.
  - discriminate.
Defined.

Lemma stats_from_sources_witness :
  ∃ snap,
    Api.getAllAlertsForAdmin (Api.Fulfilled (Some [msg_m1])) (Api.Fulfilled (Some [sos_s1]))
                             (Api.Fulfilled (Some [inc_i1])) = Normal snap ∧
    Api.total (Api.stats snap) = 3.
Proof.
  destruct (stats_from_sources (Api.Fulfilled (Some [msg_m1])) (Api.Fulfilled (Some [sos_s1]))
              (Api.Fulfilled (Some [inc_i1]))) as (snap & Hsnap & Htotal & _).
  - simpl. repeat constructor.
  - by exists snap.
Defined.

Lemma malformed_incident_loses_feed_witness :
  Api.getAllAlertsForAdmin (Api.Fulfilled (Some [msg_m1])) (Api.Fulfilled (Some [sos_s1]))
                           (Api.Fulfilled (Some [inc_i1; inc_i2])) = Normal Api.empty_snapshot.
Proof.
  apply malformed_incident_loses_feed. simpl.
  apply Exists_cons_tl, Exists_cons_hd. vm_compute. intros [].
Defined.

Lemma readers_fall_back_witness :
  (Requests.getAllSOSAlerts admin_down).1 = ["/api/admin/sos"; "/api/sos/user"] ∧
  (Requests.getAllSOSAlerts admin_down).2 = Normal [sos_s1].
Proof.
  destruct (proj1 (proj2 (proj2 (proj2 (proj2 (proj2 (readers_fall_back admin_down))))))
              "request failed" eq_refl) as [Hpaths Hresult].
  split; [exact Hpaths|]. rewrite Hresult. reflexivity.
Defined.



Lemma user_status_post_witness :
  ∃ body,
    (Requests.sendUserStatus false post_ok status_report).1 = [body] ∧
    body.["title"] = JStr "Status Update" ∧
    (Requests.sendUserStatus true post_ok status_report).1 = [].
Proof.
  destruct (user_status_post false post_ok status_report) as [_ Hsent].
  destruct (Hsent eq_refl) as (body & Hbody & Htitle & _).
  destruct (user_status_post true post_ok status_report) as [Hnone _].
  exists body. split; [exact Hbody|]. split; [exact Htitle|]. exact (proj1 (Hnone eq_refl)).
Defined.

Lemma health_fallback_breaks_strip_witness :
  Health.getSystemHealth (Throw "Network Error") = Normal (Some Health.mock) ∧
  ∃ e, Health.render (Some Health.mock) = Throw e.
Proof.
  exact (proj1 (proj2 (proj2 (health_fallback_breaks_strip (Throw "Network Error"))))
           "Network Error" eq_refl).
Defined.


Lemma rows_of_sources_witness :
  ∃ a, Api.formatIncident inc_i1 = Normal a ∧
       AdminActionsRow.shown_title a = JStr "Incident: FIRE" ∧
       AdminActionsRow.shown_title
         (Api.formatMessage (JS.literal [("message_type", JStr "GENERAL")]))
         = JStr "GENERAL Alert".
Proof.
  destruct rows_of_sources as (_ & Hincident & Hmessage).
  eexists. split; [reflexivity|]. split.
  - exact (proj1 (Hincident inc_i1 _ eq_refl)).
  - apply Hmessage. reflexivity.
Defined.
